(** * Abaverify: the result post-processor [processresults.py]

    A shallow embedding of the functions of [abaverify/processresults.py]
    and the properties of its run gating, identifier resolution, signal
    utilities and test evaluators.

    Conventions of the embedding.
    - Python numbers that are measured samples (x and y values of a history
      series, reference values, tolerances) are exact rationals [Q]; order
      comparisons, [abs], [max] and [min] are the ones of the source.
    - A Python exception is a value of [exn]; a computation that may raise
      returns [result A].
    - A Python [dict] whose iteration order is irrelevant is a [gmap]; the
      Abaqus repositories that the code iterates over ([historyRegions],
      [historyOutputs], [steps]) keep their order and are association lists.
    - The Abaqus session calls are modelled by their effect on the data the
      code reads back: [session.XYDataFromHistory] looks a channel up in the
      history store and registers the series under the given name. *)

From Stdlib Require Import QArith Qabs ZArith String Ascii List Lia Lqa Bool.
From Stdlib Require Import DecimalString DecimalZ Decimal.
From stdpp Require Import base gmap strings list option.

Import ListNotations.
Open Scope string_scope.
Set Warnings "-register-all".

(** ** Exceptions and the error monad *)

Inductive exn : Type :=
| Exception (msg : string)
| ValueError (msg : string)
| TypeError
| KeyError
| IndexError
| NameError (name : string)
| AssertionError
| NotImplementedError.

Inductive result (A : Type) : Type :=
| Ok (a : A)
| Raise (e : exn).
Arguments Ok {A} a.
Arguments Raise {A} e.

Definition rbind {A B} (m : result A) (k : A -> result B) : result B :=
  match m with
  | Ok a => k a
  | Raise e => Raise e
  end.

Notation "'let*' x ':=' m 'in' k" := (rbind m (fun x => k))
  (at level 10, x pattern, m at level 100, k at level 200).

Definition of_option {A} (e : exn) (o : option A) : result A :=
  match o with
  | Some a => Ok a
  | None => Raise e
  end.

Definition is_ok {A} (r : result A) : bool :=
  match r with Ok _ => true | Raise _ => false end.

(** ** Python values of the job configuration *)

Inductive pyval : Type :=
| PNone
| PBool (b : bool)
| PInt (z : Z)
| PStr (s : string)
| PList (l : list pyval)
| PDict (d : list (string * pyval)).

(** Truth value of an object, as [not v] and [if v] test it. *)
Definition truthy (v : pyval) : bool :=
  match v with
  | PNone => false
  | PBool b => b
  | PInt z => negb (z =? 0)%Z
  | PStr s => negb (String.eqb s "")
  | PList l => match l with [] => false | _ => true end
  | PDict d => match d with [] => false | _ => true end
  end.

(** [d[k]] on a dict value kept as an association list. *)
Fixpoint assoc {A} (k : string) (d : list (string * A)) : option A :=
  match d with
  | [] => None
  | (k', v) :: d' => if String.eqb k k' then Some v else assoc k d'
  end.

Definition getitem (v : pyval) (k : string) : result pyval :=
  match v with
  | PDict d => of_option KeyError (assoc k d)
  | _ => Raise TypeError
  end.

(** Keys used in the results dict. *)
Definition type_name := "type".
Definition compute_value_name := "computedValue".
Definition reference_value_name := "referenceValue".
Definition identifier_name := "identifier".
Definition symbol_name := "symbol".
Definition results_name := "results".
Definition results_max := "max".
Definition results_min := "min".
Definition results_continous := "continuous".
Definition results_xy_infl_pt := "xy_infl_pt".
Definition results_disp_at_zero_y := "disp_at_zero_y".
Definition results_log_stress_at_failure_init := "log_stress_at_failure_init".
Definition results_slope := "slope".
Definition results_final_value := "finalValue".
Definition results_x_at_peak_in_xy := "x_at_peak_in_xy".
Definition results_tabular := "tabular".
Definition label_name := "label".
Definition xEvalStatement := "xEvalStatement".
Definition yEvalStatement := "yEvalStatement".
Definition evalStatement := "evalStatement".

(** ** Run gating *)

(** [odb.diagnosticData]: the counters and the descriptions of the errors. *)
Record DiagnosticData : Type := {
  numberOfAnalysisErrors : Z;
  analysisErrors : list string;
  numberOfAnalysisWarnings : Z
}.

Definition newline : ascii := ascii_of_nat 10.
Definition tab : ascii := ascii_of_nat 9.

Definition analysis_failed : exn :=
  Exception (String newline "ERROR: Errors occurred during analysis").
Definition warnings_found : exn :=
  Exception (String newline "ERROR: Warnings occurred during analysis").

(** [resultTypes = [r[type_name] for r in para[results_name]]] *)
Fixpoint types_of (rs : list pyval) : result (list pyval) :=
  match rs with
  | [] => Ok []
  | r :: rs' =>
      let* t := getitem r type_name in
      let* ts := types_of rs' in
      Ok (t :: ts)
  end.

Definition resultTypes (para : gmap string pyval) : result (list pyval) :=
  match para !! results_name with
  | Some (PList rs) => types_of rs
  | Some _ => Raise TypeError
  | None => Raise KeyError
  end.

Definition is_str (s : string) (v : pyval) : bool :=
  match v with PStr s' => String.eqb s s' | _ => false end.

(** The loop over [odb.diagnosticData.analysisErrors]. *)
Fixpoint only_distortion (errs : list string) : result unit :=
  match errs with
  | [] => Ok tt
  | e :: errs' =>
      if negb (String.eqb e "Excessively distorted elements")
      then Raise analysis_failed
      else only_distortion errs'
  end.

(** The block under [# Report errors]. *)
Definition report_errors (para : gmap string pyval) (dd : DiagnosticData) : result unit :=
  if (0 <? numberOfAnalysisErrors dd)%Z then
    let* ts := resultTypes para in
    let* _ :=
      (if existsb (is_str results_log_stress_at_failure_init) ts
       then only_distortion (analysisErrors dd)
       else Ok tt) in
    match para !! "ignoreAnalysisErrors" with
    | Some v => if negb (truthy v) then Raise analysis_failed else Ok tt
    | None => Raise analysis_failed
    end
  else Ok tt.

(** The block under [# Report warnings]. *)
Definition report_warnings (para : gmap string pyval) (dd : DiagnosticData) : result unit :=
  match para !! "ignoreWarnings" with
  | Some v =>
      if negb (truthy v) then
        if (0 <? numberOfAnalysisWarnings dd)%Z then Raise warnings_found else Ok tt
      else Ok tt
  | None => Ok tt
  end.

(** ** Python string helpers *)

(** [s.split(sep)] for a one-character separator: every occurrence of the
    separator cuts, so the result is never empty. *)
Fixpoint py_split (sep : ascii) (s : string) : list string :=
  match s with
  | EmptyString => [""]
  | String c s' =>
      if Ascii.eqb c sep then "" :: py_split sep s'
      else match py_split sep s' with
           | w :: ws => String c w :: ws
           | [] => [String c ""]
           end
  end.

Definition is_digit (c : ascii) : bool :=
  (48 <=? nat_of_ascii c)%nat && (nat_of_ascii c <=? 57)%nat.

Definition is_upper (c : ascii) : bool :=
  (65 <=? nat_of_ascii c)%nat && (nat_of_ascii c <=? 90)%nat.

Definition is_lower (c : ascii) : bool :=
  (97 <=? nat_of_ascii c)%nat && (nat_of_ascii c <=? 122)%nat.

(** The class [\w] of the regular expressions of the source. *)
Definition is_word (c : ascii) : bool :=
  is_digit c || is_upper c || is_lower c || Ascii.eqb c "_".

Definition lower_char (c : ascii) : ascii :=
  if is_upper c then ascii_of_nat (nat_of_ascii c + 32) else c.

(** [s.lower()] *)
Fixpoint lower (s : string) : string :=
  match s with
  | EmptyString => EmptyString
  | String c s' => String (lower_char c) (lower s')
  end.

(** What is left of [s] after the literal prefix [p]. *)
Fixpoint strip_prefix (p s : string) : option string :=
  match p, s with
  | EmptyString, _ => Some s
  | String a p', String b s' => if Ascii.eqb a b then strip_prefix p' s' else None
  | String _ _, EmptyString => None
  end.

(** [re.match('^' + p + cls, s)] with [cls] a one-character class, possibly
    followed by [+]: the prefix [p] and then at least one character of the
    class. *)
Definition re_match (p : string) (cls : ascii -> bool) (s : string) : bool :=
  match strip_prefix p s with
  | Some (String c _) => cls c
  | _ => false
  end.

(** ** The output database *)

Definition series : Type := list (Q * Q).

(** [odb.steps[s].historyRegions[hr].historyOutputs.keys()], in the order of
    the repositories, and the series that [session.XYDataFromHistory] reads
    for a step and an output variable name. *)
Record Odb : Type := {
  odb_steps : list (string * list (string * list string));
  odb_history : gmap (string * string) series
}.

Fixpoint concat_steps (odb : Odb) (outputVariableName : string) (steps : list string)
  : result series :=
  match steps with
  | [] => Ok []
  | s :: steps' =>
      let* d := of_option KeyError (odb_history odb !! (s, outputVariableName)) in
      let* ds := concat_steps odb outputVariableName steps' in
      Ok (d ++ ds)%list
  end.

Definition in_list (s : string) (l : list string) : bool :=
  existsb (String.eqb s) l.

Definition listOfHistoryOutputSymbols (odb : Odb) : list string :=
  fold_left (fun outputs s =>
    fold_left (fun outputs hr =>
      fold_left (fun outputs ho =>
        if negb (in_list ho outputs) then (outputs ++ [ho])%list else outputs)
        (snd hr) outputs)
      (snd s) outputs)
    (odb_steps odb) [].

(** ** Identifier resolution *)

Inductive Identifier : Type :=
| IdStr (s : string)
| IdDict (d : gmap string string)
| IdList (l : list Identifier)
| IdOther.

Inductive VarName : Type :=
| Name (s : string)
| Names (l : list VarName).

(** The [for historyRegion in ...] loop of [_historyOutputNameHelperNode]. *)
Fixpoint scan_regions (prefixString i nset : string)
    (regions : list (string * list string)) : result string :=
  match regions with
  | [] => Raise (Exception "Error getting history Output name in _historyOutputNameHelperNode")
  | (historyRegion, outputs) :: regions' =>
      if in_list i outputs then
        let labelSplit := py_split " " historyRegion in
        if String.eqb (nth 0 labelSplit "") "Node" && (length labelSplit =? 2)%nat then
          let* nodeNumber :=
            of_option IndexError (py_split "." (nth 1 labelSplit "") !! 1%nat) in
          Ok (prefixString ++ i ++ " at Node " ++ nodeNumber ++ " in NSET " ++ nset)
        else Raise (Exception ("Must specify a position for " ++ i))
      else scan_regions prefixString i nset regions'
  end.

Definition _historyOutputNameHelperNode (odb : Odb) (prefixString : string)
    (identifier : gmap string string) (steps : list string) : result string :=
  let* i := of_option KeyError (identifier !! "symbol") in
  match identifier !! "position", identifier !! "nset" with
  | Some position, Some nset =>
      Ok (prefixString ++ i ++ " at " ++ position ++ " in NSET " ++ nset)
  | None, Some nset =>
      if (1 <? length steps)%nat then
        Raise (Exception "_historyOutputNameHelperNode: Must specify position if analysis has multiple steps")
      else
        let* step := of_option IndexError (steps !! 0%nat) in
        let* regions := of_option KeyError (assoc step (odb_steps odb)) in
        scan_regions prefixString i nset regions
  | _, None => Raise (ValueError "Missing nset definition in RF identifier")
  end.

Definition _historyOutputNameHelperElement (odb : Odb) (prefixString : string)
    (identifier : gmap string string) (steps : list string) : result string :=
  let* i := of_option KeyError (identifier !! "symbol") in
  match identifier !! "position", identifier !! "elset" with
  | Some position, Some elset =>
      let i :=
        if negb (in_list i (listOfHistoryOutputSymbols odb)) then
          fold_left (fun i sym => if String.eqb (lower i) (lower sym) then sym else i)
            (listOfHistoryOutputSymbols odb) i
        else i in
      Ok (prefixString ++ i ++ " at " ++ position ++ " in ELSET " ++ elset)
  | _, _ => Raise (ValueError "Must define position in element identifier")
  end.

Fixpoint historyOutputNameFromIdentifier (odb : Odb) (identifier : Identifier)
    (steps : list string) : result VarName :=
  match identifier with
  | IdList l =>
      let* out :=
        (fix each (l : list Identifier) : result (list VarName) :=
           match l with
           | [] => Ok []
           | i :: l' =>
               let* n := historyOutputNameFromIdentifier odb i steps in
               let* ns := each l' in
               Ok (n :: ns)
           end) l in
      Ok (Names out)
  | IdDict d =>
      match d !! "symbol" with
      | Some i =>
          if re_match "RF" is_digit i then
            let* n := _historyOutputNameHelperNode odb "Reaction force: " d steps in
            Ok (Name n)
          else if re_match "U" is_digit i then
            let* n := _historyOutputNameHelperNode odb "Spatial displacement: " d steps in
            Ok (Name n)
          else if re_match "S" is_digit i then
            let* n := _historyOutputNameHelperElement odb "Stress components: " d steps in
            Ok (Name n)
          else if re_match "LE" is_digit i then
            let* n := _historyOutputNameHelperElement odb "Logarithmic strain components: " d steps in
            Ok (Name n)
          else if re_match "E" is_digit i then Raise NotImplementedError
          else if re_match "SDV" is_word i then
            let* n := _historyOutputNameHelperElement odb "Solution dependent state variables: " d steps in
            Ok (Name n)
          else Raise (ValueError ("Unrecognized symbol " ++ i ++ " found"))
      | None => Raise (ValueError "Identifier missing symbol definition")
      end
  | IdStr s => Ok (Name s)
  | IdOther =>
      Raise (ValueError "Expecting that the argument is a list, dict, or str.")
  end.

(** ** Numeric helpers *)

Open Scope Q_scope.

Definition Qltb (a b : Q) : bool := negb (Qle_bool b a).

(** [max(a, b)] and [min(a, b)]: the first argument is kept unless the
    second is strictly beyond it. *)
Definition max2 (a b : Q) : Q := if Qltb a b then b else a.
Definition min2 (a b : Q) : Q := if Qltb b a then b else a.

(** [max(l)] and [min(l)] of a list; both raise on the empty list. *)
Definition py_max (l : list Q) : result Q :=
  match l with
  | [] => Raise (ValueError "max() arg is an empty sequence")
  | a :: l' => Ok (fold_left max2 l' a)
  end.

Definition py_min (l : list Q) : result Q :=
  match l with
  | [] => Raise (ValueError "min() arg is an empty sequence")
  | a :: l' => Ok (fold_left min2 l' a)
  end.

(** [np.diff(l)]: the differences [l[i+1] - l[i]]. *)
Fixpoint np_diff (l : list Q) : list Q :=
  match l with
  | a :: (b :: _) as t => (b - a) :: np_diff t
  | _ => []
  end.

(** The number of leading elements of [arr] that are [<= key]: numpy locates
    the interval of [key] with it on short arrays, and its bisection returns
    the same index on an ascending array. *)
Fixpoint count_le (key : Q) (arr : list Q) : nat :=
  match arr with
  | [] => 0%nat
  | a :: arr' => if Qle_bool a key then S (count_le key arr') else 0%nat
  end.

(** [np.interp(x, xp, fp)] at one point [x], with the default [left] and
    [right] values. *)
Definition np_interp (x : Q) (xp fp : list Q) : result Q :=
  match xp, fp with
  | [], _ => Raise (ValueError "array of sample points is empty")
  | _ :: _, [] => Raise (ValueError "fp and xp are not of the same length.")
  | x0 :: _, f0 :: _ =>
      if negb (length fp =? length xp)%nat
      then Raise (ValueError "fp and xp are not of the same length.")
      else if Qltb (List.last xp x0) x then Ok (List.last fp f0)
      else if Qltb x x0 then Ok f0
      else
        let j := (count_le x xp - 1)%nat in
        if (j =? length xp - 1)%nat then Ok (nth j fp 0)
        else if Qeq_bool (nth j xp 0) x then Ok (nth j fp 0)
        else
          let slope := (nth (j + 1)%nat fp 0 - nth j fp 0) / (nth (j + 1)%nat xp 0 - nth j xp 0) in
          Ok (slope * (x - nth j xp 0) + nth j fp 0)
  end.

(** ** Signal pipeline *)

Definition interpolate (x : Q) (xp fp : list Q) : result Q :=
  if forallb (fun d => Qltb 0 d) (np_diff xp) then np_interp x xp fp
  else if forallb (fun i => Qltb i 0) xp then
    let xpos := map Qabs xp in
    np_interp ((-1 # 1) * x) xpos fp
  else Raise (Exception "Functionality to interpolate datasets that traverse 0 or are unsorted is not implemented").

(** [[xi for xi in xyData if xi[0] > windowMin and xi[0] < windowMax]] *)
Definition window_filter (xyData : series) (windowMin windowMax : Q) : series :=
  List.filter (fun xi => Qltb windowMin (fst xi) && Qltb (fst xi) windowMax) xyData.

(** The block under [# Select window] of the [xy_infl_pt] and [slope]
    branches (the two copies are the same text): the points of the window,
    or the exception the block raises. *)
Definition select_window (xyData : series) (windowMin windowMax : Q) : result series :=
  let windowed := window_filter xyData windowMin windowMax in
  if (length windowed =? 0)%nat
  then Raise (Exception "No points found in specified window")
  else
    let* m := py_min (map (fun i => Qabs (fst (nth i windowed (0, 0))
                                          - fst (nth (i - 1)%nat windowed (0, 0))))
                          (seq 1 (length windowed - 1)%nat)) in
    if Qeq_bool m 0 then Raise TypeError else Ok windowed.

(** ** Test evaluators on a series *)

(** The computed value of the [continuous] branch from the series [xy]. *)
Definition continuous (referenceValue : Q) (xy : series) : result Q :=
  py_max (map (fun x => max2 referenceValue
                          (Qabs (snd (nth x xy (0, 0)) - snd (nth (x - 1)%nat xy (0, 0)))))
              (seq 2 (length xy - 2)%nat)).

(** The [for pt in windowed] loop of the [disp_at_zero_y] branch, from
    [disp_crit = 0]. *)
Fixpoint find_zero (zeroTol : Q) (windowed : series) : Q :=
  match windowed with
  | [] => 0
  | pt :: windowed' =>
      if Qle_bool (Qabs (snd pt)) zeroTol then fst pt else find_zero zeroTol windowed'
  end.

Definition zero_not_found : exn :=
  ValueError "disp_at_zero_y: Could not find a point where y data goes to zero".

(** The [disp_at_zero_y] branch from the combined series [xy]; [window] and
    [zeroTol] are the optional keys of the test. *)
Definition disp_at_zero_y (window : option (Q * Q)) (referenceValue tolerance : Q)
    (zeroTol : option Q) (xy : series) : result Q :=
  let '(windowMin, windowMax) :=
    match window with
    | Some w => w
    | None => (referenceValue - 2 * tolerance, referenceValue + 2 * tolerance)
    end in
  let windowed := window_filter xy windowMin windowMax in
  let zeroTol := match zeroTol with Some z => z | None => 1 # 1000000 end in
  let disp_crit := find_zero zeroTol windowed in
  if Qeq_bool disp_crit 0 then Raise zero_not_found else Ok disp_crit.

Fixpoint interp_each (xs xp fp : list Q) : result (list Q) :=
  match xs with
  | [] => Ok []
  | x :: xs' =>
      let* y := np_interp x xp fp in
      let* ys := interp_each xs' xp fp in
      Ok (y :: ys)
  end.

Definition non_monotonic : exn := Exception "x values must be monotonically increasing".

(** The [tabular] branch from the combined series [xy]. *)
Definition tabular (referenceValue : list (Q * Q)) (xy : series) : result (list (Q * Q)) :=
  match xy with
  | [] => Raise IndexError
  | _ =>
      let x := map fst xy in
      let y := map snd xy in
      if forallb (fun d => Qltb d 0) (np_diff x) then Raise non_monotonic
      else
        let x_ref_values := map fst referenceValue in
        let* y_computed_values := interp_each x_ref_values x y in
        Ok (combine x_ref_values y_computed_values)
  end.

(** ** The collection loop

    The loop [for iii, r in enumerate(para[results_name])] runs at module
    level, so the names it assigns ([identifier_list], [xyDataObj], [xy])
    are module globals that live from one test to the next; a name is
    unbound until its first assignment. [session.xyDataObjects] is the
    repository of the session. *)

(** A test of one identifier ([max], [min], [continuous], [finalValue]):
    the keys of the dict [r] that these branches read; an absent optional key
    is [None]. The evaluation statement is the function that [eval] computes
    from the local dict [d]. *)
Record TestSpec : Type := {
  r_type : string;
  r_identifier : Identifier;
  r_step : option string;
  r_referenceValue : Q;
  r_evalStatement : option (gmap string series -> result series);
  r_computedValue : option Q
}.

Record Env : Type := {
  g_identifier_list : option (list Identifier);
  g_xyDataObj : option series;
  g_xy : option series;
  xyDataObjects : gmap string series;
  testResults : list TestSpec
}.

Definition set_identifier_list (l : list Identifier) (env : Env) : Env :=
  {| g_identifier_list := Some l; g_xyDataObj := g_xyDataObj env; g_xy := g_xy env;
     xyDataObjects := xyDataObjects env; testResults := testResults env |}.

Definition set_xyDataObj (d : series) (env : Env) : Env :=
  {| g_identifier_list := g_identifier_list env; g_xyDataObj := Some d; g_xy := g_xy env;
     xyDataObjects := xyDataObjects env; testResults := testResults env |}.

Definition set_xy (d : series) (env : Env) : Env :=
  {| g_identifier_list := g_identifier_list env; g_xyDataObj := g_xyDataObj env;
     g_xy := Some d; xyDataObjects := xyDataObjects env; testResults := testResults env |}.

Definition register (name : string) (d : series) (env : Env) : Env :=
  {| g_identifier_list := g_identifier_list env; g_xyDataObj := g_xyDataObj env;
     g_xy := g_xy env; xyDataObjects := <[name := d]> (xyDataObjects env);
     testResults := testResults env |}.

(** [r[compute_value_name] = v; testResults.append(r)] *)
Definition store_result (r : TestSpec) (v : Q) (env : Env) : Env :=
  let r' := {| r_type := r_type r; r_identifier := r_identifier r; r_step := r_step r;
               r_referenceValue := r_referenceValue r;
               r_evalStatement := r_evalStatement r; r_computedValue := Some v |} in
  {| g_identifier_list := g_identifier_list env; g_xyDataObj := g_xyDataObj env;
     g_xy := g_xy env; xyDataObjects := xyDataObjects env;
     testResults := (testResults env ++ [r'])%list |}.

Definition empty_env : Env :=
  {| g_identifier_list := None; g_xyDataObj := None; g_xy := None;
     xyDataObjects := ∅; testResults := [] |}.

(** [ident[k]] on an identifier, as a string. *)
Definition ident_getitem (ident : Identifier) (k : string) : result string :=
  match ident with
  | IdDict d => of_option KeyError (d !! k)
  | _ => Raise TypeError
  end.

(** [label_name in ident] *)
Definition has_label (ident : Identifier) : result bool :=
  match ident with
  | IdDict d => Ok (bool_decide (is_Some (d !! label_name)))
  | IdStr s => Ok (bool_decide (is_Some (String.index 0 label_name s)))
  | IdList l =>
      Ok (existsb (fun i => match i with
                            | IdStr s => String.eqb s label_name
                            | _ => false
                            end) l)
  | IdOther => Raise TypeError
  end.

Fixpoint all_have_label (l : list Identifier) : result bool :=
  match l with
  | [] => Ok true
  | ident :: l' =>
      let* b := has_label ident in
      let* bs := all_have_label l' in
      Ok (b && bs)
  end.

Section Collect.

Variable odb : Odb.

(** [session.XYDataFromHistory(name, odb, outputVariableName, steps)]: the
    series read from the history store, registered under [name]. *)
Definition XYDataFromHistory (env : Env) (name : string) (outputVariableName : VarName)
    (steps : list string) : result (series * Env) :=
  match outputVariableName with
  | Name v =>
      let* d := concat_steps odb v steps in
      Ok (d, register name d env)
  | Names _ => Raise TypeError
  end.

(** The loop of [evaluate_statement] that fills the local dict [d]. *)
Fixpoint fill_d (steps : list string) (pairs : list (Identifier * VarName))
    (d : gmap string series) (env : Env) : result (gmap string series * Env) :=
  match pairs with
  | [] => Ok (d, env)
  | (ident, var_name) :: pairs' =>
      let* sym := ident_getitem ident symbol_name in
      let* (data, env) := XYDataFromHistory env sym var_name steps in
      let* lbl := ident_getitem ident label_name in
      fill_d steps pairs' (<[lbl := data]> d) env
  end.

Definition evaluate_statement (steps : list string) (env : Env)
    (identifier_list : list Identifier) (var_names : list VarName)
    (eval_statement : gmap string series -> result series) : result (series * Env) :=
  let* labelled := all_have_label identifier_list in
  if negb labelled then Raise AssertionError
  else
    let* (d, env) := fill_d steps (combine identifier_list var_names) ∅ env in
    let* v := eval_statement d in
    Ok (v, env).

(** The name [n] that the [max], [min] and [finalValue] branches build. *)
Definition data_name (r : TestSpec) (steps : list string) : result string :=
  let* sym := ident_getitem (r_identifier r) symbol_name in
  let* s0 := of_option IndexError (steps !! 0%nat) in
  Ok (sym ++ "_" ++ s0 ++ "_" ++ r_type r).

(** The branch [r[type_name] in (results_max, results_min)]. *)
Definition branch_max_min (steps : list string) (env : Env) (r : TestSpec) : result Env :=
  let* varName := historyOutputNameFromIdentifier odb (r_identifier r) steps in
  let identifier_list := [r_identifier r] in
  let env := set_identifier_list identifier_list env in
  let* (xy, env) :=
    match r_evalStatement r with
    | Some stmt => evaluate_statement steps env identifier_list [varName] stmt
    | None =>
        let* n := data_name r steps in
        let* (xyDataObj, env) := XYDataFromHistory env n varName steps in
        let env := set_xyDataObj xyDataObj env in
        let* xy := of_option KeyError (xyDataObjects env !! n) in
        Ok (xy, env)
    end in
  let env := set_xy xy env in
  let* v := if String.eqb (r_type r) results_max
            then py_max (map snd xy) else py_min (map snd xy) in
  Ok (store_result r v env).

(** The branch [r[type_name] == results_continous]. *)
Definition branch_continuous (steps : list string) (env : Env) (r : TestSpec) : result Env :=
  let* varName := historyOutputNameFromIdentifier odb (r_identifier r) steps in
  let* (xy, env) :=
    match r_evalStatement r with
    | Some stmt =>
        let* identifier_list :=
          of_option (NameError "identifier_list") (g_identifier_list env) in
        evaluate_statement steps env identifier_list [varName] stmt
    | None => XYDataFromHistory env "XYData-1" varName steps
    end in
  let env := set_xy xy env in
  let* v := continuous (r_referenceValue r) xy in
  Ok (store_result r v env).

(** The branch [r[type_name] == results_final_value]. *)
Definition branch_finalValue (steps : list string) (env : Env) (r : TestSpec) : result Env :=
  let* varName := historyOutputNameFromIdentifier odb (r_identifier r) steps in
  let* (xy, env) :=
    match r_evalStatement r with
    | Some stmt =>
        let* identifier_list :=
          of_option (NameError "identifier_list") (g_identifier_list env) in
        evaluate_statement steps env identifier_list [varName] stmt
    | None =>
        let* n := data_name r steps in
        let* (xyDataObj, env) := XYDataFromHistory env n varName steps in
        let env := set_xyDataObj xyDataObj env in
        let* xy := of_option KeyError (xyDataObjects env !! n) in
        Ok (xy, env)
    end in
  let env := set_xy xy env in
  let* xyDataObj := of_option (NameError "xyDataObj") (g_xyDataObj env) in
  let* pt := of_option IndexError (xyDataObj !! (length xyDataObj - 1)%nat) in
  Ok (store_result r (snd pt) env).

(** The branches of the tests of several identifiers ([xy_infl_pt],
    [disp_at_zero_y], [log_stress_at_failure_init], [slope],
    [x_at_peak_in_xy], [tabular]) enter the loop as a parameter. *)
Variable other_branches : list string -> Env -> TestSpec -> result Env.

Definition is_other_type (t : string) : bool :=
  in_list t [results_xy_infl_pt; results_disp_at_zero_y;
             results_log_stress_at_failure_init; results_slope;
             results_x_at_peak_in_xy; results_tabular].

(** One turn of the loop. *)
Definition collect_one (env : Env) (r : TestSpec) : result Env :=
  let steps := [match r_step r with Some s => s | None => "Step-1" end] in
  if in_list (r_type r) [results_max; results_min] then branch_max_min steps env r
  else if String.eqb (r_type r) results_continous then branch_continuous steps env r
  else if String.eqb (r_type r) results_final_value then branch_finalValue steps env r
  else if is_other_type (r_type r) then other_branches steps env r
  else Raise NotImplementedError.

Fixpoint collect (env : Env) (rs : list TestSpec) : result Env :=
  match rs with
  | [] => Ok env
  | r :: rs' =>
      let* env := collect_one env r in
      collect env rs'
  end.

End Collect.

(** ** The result file *)

Close Scope Q_scope.

Definition quote : ascii := ascii_of_nat 34.
Definition backslash : ascii := ascii_of_nat 92.

(** ['\t' * depth] *)
Fixpoint tabs (depth : nat) : string :=
  match depth with
  | O => ""
  | S d => String tab (tabs d)
  end.

(** [str(v)] of a value that is neither a dict nor a list (those never
    reach the [str] calls of [write_results]). *)
Definition str (v : pyval) : string :=
  match v with
  | PNone => "None"
  | PBool true => "True"
  | PBool false => "False"
  | PInt z => NilEmpty.string_of_int (Z.to_int z)
  | PStr s => s
  | PList _ | PDict _ => ""
  end.

(** The files of the working directory, by name. [open(fileName, 'w')]
    empties the file, [f.write(s)] appends to it. *)
Definition open_w (fileName : string) (fs : gmap string string) : gmap string string :=
  <[fileName := ""]> fs.

Definition fwrite (fileName s : string) (fs : gmap string string) : gmap string string :=
  <[fileName := default "" (fs !! fileName) ++ s]> fs.

Definition is_container (v : pyval) : bool :=
  match v with
  | PList _ | PDict _ => true
  | _ => false
  end.

Fixpoint write_results (results_to_write : pyval) (fileName : string) (depth : nat)
    (fs : gmap string string) : gmap string string :=
  let fs := if (depth =? 0)%nat
            then fwrite fileName "results = " (open_w fileName fs)
            else fs in
  match results_to_write with
  | PDict d =>
      let fs := fwrite fileName (tabs depth ++ String "{" (String newline "")) fs in
      let fs :=
        fold_left (fun (fs : gmap string string) (item : string * pyval) =>
          let (r, x) := item in
          let fs := fwrite fileName
                      (tabs depth ++ String quote r ++ String quote ": ") fs in
          match x with
          | PDict _ | PList _ =>
              write_results x fileName (S depth)
                (fwrite fileName (String newline "") fs)
          | PStr s =>
              fwrite fileName
                (String quote (str x) ++ String quote (String "," (String newline ""))) fs
          | _ => fwrite fileName (str x ++ String "," (String newline "")) fs
          end) d fs in
      if (depth =? 0)%nat
      then fwrite fileName (tabs depth ++ String "}" (String newline "")) fs
      else fwrite fileName (tabs depth ++ "}, " ++ String newline "") fs
  | PList l =>
      let fs := fwrite fileName (tabs depth ++ String "[" (String newline "")) fs in
      let fs :=
        fold_left (fun (fs : gmap string string) (r : pyval) =>
          match r with
          | PDict _ | PList _ => write_results r fileName (S depth) fs
          | PStr s =>
              fwrite fileName
                (tabs depth ++ String quote (str r)
                 ++ String quote ", " ++ String newline "") fs
          | _ => fwrite fileName (tabs depth ++ str r ++ ", " ++ String newline "") fs
          end) l fs in
      if (depth =? 0)%nat
      then fwrite fileName (tabs depth ++ String "]" (String newline "")) fs
      else fwrite fileName (tabs depth ++ "]," ++ String newline "") fs
  | _ => fs
  end.

(** ** Reading the result file back *)

(** Modelled from the spec: the reader of the result file is not part of
    [processresults.py]; the file is Python source, [results = <literal>],
    that the test runner loads. The tokens of that literal. *)
Inductive token : Type :=
| TLBrack | TRBrack | TLBrace | TRBrace | TColon | TComma | TEq
| TStr (s : string)
| TNum (s : string)
| TName (s : string).

Inductive lstate : Type :=
| LDefault
| LInStr (acc : string)
| LInNum (acc : string)
| LInName (acc : string).

Definition is_space (c : ascii) : bool :=
  Ascii.eqb c " " || Ascii.eqb c tab || Ascii.eqb c newline.

Definition is_alpha (c : ascii) : bool :=
  is_upper c || is_lower c || Ascii.eqb c "_".

Definition cons_tok (t : token) (r : option (list token)) : option (list token) :=
  option_map (cons t) r.

(** A number token is a run of digits after an optional sign. *)
Definition num_tok (acc : string) (r : option (list token)) : option (list token) :=
  if String.eqb acc "-" then None else cons_tok (TNum acc) r.

(** Modelled from the spec: the tokenizer of the reader. White space
    separates tokens; a string literal runs from a double quote to the next
    one and holds neither a backslash nor a line break (escape sequences are
    not read). *)
Fixpoint lex (st : lstate) (s : string) : option (list token) :=
  match s with
  | EmptyString =>
      match st with
      | LDefault => Some []
      | LInStr _ => None
      | LInNum acc => num_tok acc (Some [])
      | LInName acc => Some [TName acc]
      end
  | String c s' =>
      let start (_ : unit) :=
        if is_space c then lex LDefault s'
        else if Ascii.eqb c "[" then cons_tok TLBrack (lex LDefault s')
        else if Ascii.eqb c "]" then cons_tok TRBrack (lex LDefault s')
        else if Ascii.eqb c "{" then cons_tok TLBrace (lex LDefault s')
        else if Ascii.eqb c "}" then cons_tok TRBrace (lex LDefault s')
        else if Ascii.eqb c ":" then cons_tok TColon (lex LDefault s')
        else if Ascii.eqb c "," then cons_tok TComma (lex LDefault s')
        else if Ascii.eqb c "=" then cons_tok TEq (lex LDefault s')
        else if Ascii.eqb c quote then lex (LInStr "") s'
        else if is_digit c || Ascii.eqb c "-" then lex (LInNum (String c "")) s'
        else if is_alpha c then lex (LInName (String c "")) s'
        else None in
      match st with
      | LDefault => start tt
      | LInStr acc =>
          if Ascii.eqb c quote then cons_tok (TStr acc) (lex LDefault s')
          else if Ascii.eqb c backslash || Ascii.eqb c newline then None
          else lex (LInStr (acc ++ String c "")) s'
      | LInNum acc =>
          if is_digit c then lex (LInNum (acc ++ String c "")) s'
          else num_tok acc (start tt)
      | LInName acc =>
          if is_alpha c || is_digit c then lex (LInName (acc ++ String c "")) s'
          else cons_tok (TName acc) (start tt)
      end
  end.

Definition num_of_text (s : string) : option Z :=
  option_map Z.of_int (NilEmpty.int_of_string s).

(** Modelled from the spec: the parser of the reader. A list and a dict are
    comma-separated, a comma may follow the last item, and the pairs of a
    dict come out in the order of the file. The [fuel] bounds the number of
    nested calls. *)
Fixpoint parse_value (fuel : nat) (ts : list token) : option (pyval * list token) :=
  match fuel with
  | O => None
  | S fuel =>
      match ts with
      | TStr s :: ts' => Some (PStr s, ts')
      | TNum s :: ts' =>
          match num_of_text s with
          | Some z => Some (PInt z, ts')
          | None => None
          end
      | TName s :: ts' =>
          if String.eqb s "None" then Some (PNone, ts')
          else if String.eqb s "True" then Some (PBool true, ts')
          else if String.eqb s "False" then Some (PBool false, ts')
          else None
      | TLBrack :: ts' =>
          match parse_items fuel ts' with
          | Some (l, ts'') => Some (PList l, ts'')
          | None => None
          end
      | TLBrace :: ts' =>
          match parse_pairs fuel ts' with
          | Some (d, ts'') => Some (PDict d, ts'')
          | None => None
          end
      | _ => None
      end
  end
with parse_items (fuel : nat) (ts : list token) : option (list pyval * list token) :=
  match fuel with
  | O => None
  | S fuel =>
      match ts with
      | TRBrack :: ts' => Some ([], ts')
      | _ =>
          match parse_value fuel ts with
          | Some (v, TComma :: ts') =>
              match parse_items fuel ts' with
              | Some (l, ts'') => Some (v :: l, ts'')
              | None => None
              end
          | Some (v, TRBrack :: ts') => Some ([v], ts')
          | _ => None
          end
      end
  end
with parse_pairs (fuel : nat) (ts : list token) : option (list (string * pyval) * list token) :=
  match fuel with
  | O => None
  | S fuel =>
      match ts with
      | TRBrace :: ts' => Some ([], ts')
      | TStr k :: TColon :: ts' =>
          match parse_value fuel ts' with
          | Some (v, TComma :: ts'') =>
              match parse_pairs fuel ts'' with
              | Some (d, ts''') => Some ((k, v) :: d, ts''')
              | None => None
              end
          | Some (v, TRBrace :: ts'') => Some ([(k, v)], ts'')
          | _ => None
          end
      | _ => None
      end
  end.

(** Modelled from the spec: reading the result file back gives the value
    bound to [results], when the file is one assignment of a literal. *)
Definition read_results (file : string) : option pyval :=
  match lex LDefault file with
  | Some (TName n :: TEq :: ts) =>
      if String.eqb n "results" then
        match parse_value (S (length ts)) ts with
        | Some (v, []) => Some v
        | _ => None
        end
      else None
  | _ => None
  end.

(** The nesting shape of a collection: the container kinds, the keys in
    their order, and the depth. *)
Inductive shape : Type :=
| SLeaf
| SList (l : list shape)
| SDict (d : list (string * shape)).

Fixpoint shape_of (v : pyval) : shape :=
  match v with
  | PList l => SList (map shape_of l)
  | PDict d => SDict (map (fun kv => (fst kv, shape_of (snd kv))) d)
  | _ => SLeaf
  end.

Fixpoint depth_of (v : pyval) : nat :=
  match v with
  | PList l => S (fold_right Nat.max 0 (map depth_of l))
  | PDict d => S (fold_right Nat.max 0 (map (fun kv => depth_of (snd kv)) d))
  | _ => 0
  end.

(** The job writes the file and the reader loads it. *)
Definition round_trip (v : pyval) : option pyval :=
  match write_results v "job_results.py" 0 ∅ !! "job_results.py" with
  | Some file => read_results file
  | None => None
  end.

(** ** Inputs used by the evaluations below *)

(** A job whose only test is the failure envelope, without
    [ignoreAnalysisErrors]. *)
Definition envelope_job : gmap string pyval :=
  {[ "results" := PList [PDict [("type", PStr "log_stress_at_failure_init")]] ]}.

(** The same job with [ignoreAnalysisErrors] set. *)
Definition envelope_job_opt_in : gmap string pyval :=
  <["ignoreAnalysisErrors" := PBool true]> envelope_job.

(** A run that reports one error, an excessive element distortion. *)
Definition one_distortion : DiagnosticData :=
  {| numberOfAnalysisErrors := 1;
     analysisErrors := ["Excessively distorted elements"];
     numberOfAnalysisWarnings := 0 |}.

(** A run that reports one error of another kind. *)
Definition one_other_error : DiagnosticData :=
  {| numberOfAnalysisErrors := 1;
     analysisErrors := ["Too many attempts made for this increment"];
     numberOfAnalysisWarnings := 0 |}.

(** A run with three warnings and no error. *)
Definition three_warnings : DiagnosticData :=
  {| numberOfAnalysisErrors := 0; analysisErrors := []; numberOfAnalysisWarnings := 3 |}.

Definition job_strict_warnings : gmap string pyval :=
  {[ "ignoreWarnings" := PBool false ]}.

(** A step with two node regions that both record [RF1]. *)
Definition two_nodes : Odb :=
  {| odb_steps :=
       [("Step-1", [("Node PART-1-1.9", ["RF1"; "U1"]);
                    ("Node PART-1-1.10", ["RF1"])])];
     odb_history := ∅ |}.

(** A step with one node region that records [RF1]. *)
Definition one_node : Odb :=
  {| odb_steps := [("Step-1", [("Node PART-1-1.9", ["RF1"; "U1"])])];
     odb_history := ∅ |}.

(** A step in which no region records [RF1]. *)
Definition no_node : Odb :=
  {| odb_steps := [("Step-1", [("Node PART-1-1.9", ["U1"])])];
     odb_history := ∅ |}.

(** [{"symbol": "RF1", "nset": "LOADAPP"}] *)
Definition rf1_loadapp : gmap string string :=
  <["symbol" := "RF1"]> (<["nset" := "LOADAPP"]> ∅).

Open Scope Q_scope.

(** The value that the description of the [continuous] test gives: the
    running maximum over every pair of consecutive samples, the first pair
    included. *)
Definition continuous_all_pairs (referenceValue : Q) (xy : series) : result Q :=
  py_max (map (fun x => max2 referenceValue
                          (Qabs (snd (nth x xy (0, 0)) - snd (nth (x - 1)%nat xy (0, 0)))))
              (seq 1 (length xy - 1)%nat)).

(** A series whose largest change is between its first two samples:
    the deltas are 5, 1 and 1. *)
Definition jump_first : series := [(0, 0); (1, 5); (2, 6); (3, 7)].

(** A series with the deltas 0.05, 0.5 and 0.02. *)
Definition deltas_example : series :=
  [(0, 0); (1, 5 # 100); (2, 55 # 100); (3, 57 # 100)].

(** [x] values in non-decreasing order. *)
Definition non_decreasing (l : list Q) : bool :=
  forallb (fun d => Qle_bool 0 d) (np_diff l).

Definition table_xy : series := [(0, 0); (1, 2); (2, 4)].
Definition decreasing_xy : series := [(2, 0); (1, 2); (0, 4)].
Definition unsorted_xy : series := [(0, 0); (2, 2); (1, 4)].
Definition single_xy : series := [(1, 4)].

(** A traction-separation series whose first point in the window is the
    origin. *)
Definition zero_at_origin : series := [(0, 0); (1 # 2, 0)].
Definition zero_later : series := [(1 # 3, 1); (1 # 2, 0)].

Definition line3 : series := [(0, 0); (1, 1); (2, 2)].

(** An output database with a reaction force that ends at 5 and a
    displacement that ends at 42. *)
Definition rf1_name := "Reaction force: RF1 at Node 9 in NSET LOADAPP".
Definition u1_name := "Spatial displacement: U1 at Node 9 in NSET LOADAPP".

Definition odb_rf_u : Odb :=
  {| odb_steps := [("Step-1", [("Node PART-1-1.9", ["RF1"; "U1"])])];
     odb_history :=
       <[("Step-1", rf1_name) := [(0, 1); (1, 5)]]>
         (<[("Step-1", u1_name) := [(0, 7); (10, 42)]]> ∅) |}.

Definition id_rf1 : Identifier :=
  IdDict (<["symbol" := "RF1"]> (<["nset" := "LOADAPP"]>
            (<["position" := "Node 9"]> (<["label" := "rf"]> ∅)))).

Definition id_u1 : Identifier :=
  IdDict (<["symbol" := "U1"]> (<["nset" := "LOADAPP"]>
            (<["position" := "Node 9"]> (<["label" := "u"]> ∅)))).

(** The evaluation statement [d[l]]. *)
Definition stmt_lookup (l : string) (d : gmap string series) : result series :=
  of_option KeyError (d !! l).

Definition test_max_rf1 : TestSpec :=
  {| r_type := "max"; r_identifier := id_rf1; r_step := None; r_referenceValue := 5;
     r_evalStatement := None; r_computedValue := None |}.

(** [finalValue] of the displacement, read positionally. *)
Definition test_final_u1 : TestSpec :=
  {| r_type := "finalValue"; r_identifier := id_u1; r_step := None;
     r_referenceValue := 42; r_evalStatement := None; r_computedValue := None |}.

(** [finalValue] of the displacement, with the evaluation statement [d[l]]. *)
Definition test_final_u1_eval (l : string) : TestSpec :=
  {| r_type := "finalValue"; r_identifier := id_u1; r_step := None;
     r_referenceValue := 42; r_evalStatement := Some (stmt_lookup l);
     r_computedValue := None |}.

Definition no_other_branch (steps : list string) (env : Env) (r : TestSpec) : result Env :=
  Raise NotImplementedError.

(** What a run of the loop leaves: the computed values in order, and the
    series [xy] of the last test. *)
Definition outcome (r : result Env) : result (list (option Q) * option series) :=
  let* env := r in
  Ok (map r_computedValue (testResults env), g_xy env).

Close Scope Q_scope.

(** A list in strictly decreasing order. *)
Fixpoint strictly_decreasing (xp : list Q) : Prop :=
  match xp with
  | a :: (b :: _) as t => (b < a)%Q /\ strictly_decreasing t
  | _ => True
  end.

(** ** The text and the tokens of a collection *)

(** [''.join(l)] *)
Definition join (l : list string) : string := fold_right append "" l.

(** The text that [write_results] appends for [results_to_write] at
    [depth], after the header of depth 0. *)
Fixpoint render (v : pyval) (depth : nat) : string :=
  match v with
  | PDict d =>
      (tabs depth ++ String "{" (String newline ""))
      ++ join (map (fun item : string * pyval =>
                 let (r, x) := item in
                 (tabs depth ++ String quote r ++ String quote ": ")
                 ++ match x with
                    | PDict _ | PList _ => String newline "" ++ render x (S depth)
                    | PStr s =>
                        String quote (str x) ++ String quote (String "," (String newline ""))
                    | _ => str x ++ String "," (String newline "")
                    end) d)
      ++ (if (depth =? 0)%nat
          then tabs depth ++ String "}" (String newline "")
          else tabs depth ++ "}, " ++ String newline "")
  | PList l =>
      (tabs depth ++ String "[" (String newline ""))
      ++ join (map (fun r : pyval =>
                 match r with
                 | PDict _ | PList _ => render r (S depth)
                 | PStr s =>
                     tabs depth ++ String quote (str r) ++ String quote ", "
                     ++ String newline ""
                 | _ => tabs depth ++ str r ++ ", " ++ String newline ""
                 end) l)
      ++ (if (depth =? 0)%nat
          then tabs depth ++ String "]" (String newline "")
          else tabs depth ++ "]," ++ String newline "")
  | _ => ""
  end.

(** The tokens of the literal of a value; a comma follows every item of a
    list and every pair of a dict. *)
Fixpoint tokens_of (v : pyval) : list token :=
  match v with
  | PNone => [TName "None"]
  | PBool true => [TName "True"]
  | PBool false => [TName "False"]
  | PInt z => [TNum (str v)]
  | PStr s => [TStr s]
  | PList l =>
      (TLBrack :: List.flat_map (fun x => tokens_of x ++ [TComma]) l ++ [TRBrack])%list
  | PDict d =>
      (TLBrace
       :: List.flat_map (fun item : string * pyval =>
            let (k, x) := item in TStr k :: TColon :: tokens_of x ++ [TComma]) d
       ++ [TRBrace])%list
  end.

(** A string that the writer can put between double quotes as it is. *)
Definition clean_char (c : ascii) : bool :=
  negb (Ascii.eqb c quote || Ascii.eqb c backslash || Ascii.eqb c newline).

Fixpoint clean_string (s : string) : bool :=
  match s with
  | EmptyString => true
  | String c s' => clean_char c && clean_string s'
  end.

(** A collection all of whose strings and keys are clean. *)
Fixpoint clean (v : pyval) : bool :=
  match v with
  | PStr s => clean_string s
  | PList l => forallb clean l
  | PDict d => forallb (fun kv => clean_string (fst kv) && clean (snd kv)) d
  | _ => true
  end.

(** A list with one string that holds double quotes: it spells
    [x", ["y"], "z]. *)
Definition quoted_item : pyval :=
  PList [PStr ("x" ++ String quote ", [" ++ String quote "y" ++ String quote "], "
               ++ String quote "z")].

(** A mapping that contains a sequence of mappings. *)
Definition nested_collection : pyval :=
  PDict [("job", PStr "test_C3D8R_tension");
         ("results",
          PList [PDict [("type", PStr "max"); ("computedValue", PInt 5)];
                 PDict [("type", PStr "finalValue"); ("computedValue", PInt (-42))]])].

(** A database that records the stress as [S11], and an identifier that
    spells it [s11]. *)
Definition odb_stress : Odb :=
  {| odb_steps := [("Step-1", [("Element PART-1-1.1 Int Point 1", ["S11"; "LE11"])])];
     odb_history := ∅ |}.

Definition id_s11_lower : gmap string string :=
  <["symbol" := "s11"]> (<["position" := "Element 1 Int Point 1"]>
     (<["elset" := "DAMAGEABLEROW"]> ∅)).

(** [{"symbol": "E11", "position": ..., "elset": ...}] *)
Definition id_e11 : gmap string string :=
  <["symbol" := "E11"]> (<["position" := "Element 1 Int Point 1"]>
     (<["elset" := "DAMAGEABLEROW"]> ∅)).

(** ** Resampling *)

Open Scope Q_scope.

(** [np.linspace(start, stop, num)]: [num] evenly spaced points, the last
    of which is set to [stop]. *)
Definition np_linspace (start stop : Q) (num : nat) : list Q :=
  match num with
  | O => []
  | S O => [start]
  | S n =>
      (map (fun i => start + inject_Z (Z.of_nat i) * ((stop - start) / inject_Z (Z.of_nat n)))
           (seq 0 n) ++ [stop])%list
  end.

(** [np.interp(x, xp, fp)] for an array [x]. *)
Definition np_interp_array (xs xp fp : list Q) : result (list Q) :=
  match xp with
  | [] => Raise (ValueError "array of sample points is empty")
  | _ =>
      if negb (length fp =? length xp)%nat
      then Raise (ValueError "fp and xp are not of the same length.")
      else interp_each xs xp fp
  end.

Definition unsupported_domain : exn :=
  Exception "Functionality to interpolate datasets that traverse 0 or are unsorted is not implemented".

(** [interpolate(x, xp, fp)] for an array [x], as [resample] calls it. *)
Definition interpolate_array (xs xp fp : list Q) : result (list Q) :=
  if forallb (fun d => Qltb 0 d) (np_diff xp) then np_interp_array xs xp fp
  else if forallb (fun i => Qltb i 0) xp then
    let xpos := map Qabs xp in
    np_interp_array (map (fun x => (-1 # 1) * x) xs) xpos fp
  else Raise unsupported_domain.

Definition resample (data : series) (numPts : nat) : result series :=
  match data with
  | [] => Raise (ValueError "need more than 0 values to unpack")
  | p0 :: _ =>
      let x := map fst data in
      let y := map snd data in
      let x_first := fst p0 in
      let x_last := fst (List.last data p0) in
      let '(xMin, xMax) :=
        if Qltb x_first x_last then (x_first, x_last) else (x_last, x_first) in
      let xNew := np_linspace xMin xMax numPts in
      let* yNew := interpolate_array xNew x y in
      Ok (combine xNew yNew)
  end.

(** A series given from the largest x down to 0. *)
Definition descending_data : series := [(2, 0); (1, 2); (0, 4)].

Close Scope Q_scope.

(** ** Job names *)

(** [l[i]] with Python's negative indices. *)
Definition py_nth {A} (l : list A) (i : Z) : result A :=
  let len := Z.of_nat (length l) in
  if (0 <=? i)%Z && (i <? len)%Z then of_option IndexError (l !! Z.to_nat i)
  else if (- len <=? i)%Z && (i <? 0)%Z then of_option IndexError (l !! Z.to_nat (len + i))
  else Raise IndexError.

(** [l[0:k]] *)
Definition py_slice0 {A} (l : list A) (k : Z) : list A :=
  if (0 <=? k)%Z then firstn (Z.to_nat k) l
  else firstn (Z.to_nat (Z.of_nat (length l) + k)) l.

(** [range(start, stop, 2)] *)
Definition range2 (start stop : Z) : list Z :=
  map (fun j => (start + 2 * Z.of_nat j)%Z) (seq 0 (Z.to_nat ((stop - start + 1) / 2))).

(** [sep.join(l)] *)
Fixpoint join_with (sep : string) (l : list string) : string :=
  match l with
  | [] => ""
  | [a] => a
  | a :: l' => a ++ sep ++ join_with sep l'
  end.

Section ParseJobName.

(** Whether [int(s)] returns for the string [s] (otherwise it raises
    [ValueError]). *)
Variable int_ok : string -> bool.

(** The [while True] loop: the index of the first item that [int] accepts. *)
Fixpoint first_int (s : list string) (idxFirstInt : Z) : result Z :=
  match s with
  | [] => Raise IndexError
  | t :: s' => if int_ok t then Ok idxFirstInt else first_int s' (idxFirstInt + 1)%Z
  end.

(** The loop [for n in range(idxFirstInt - 1, len(s), 2)]. *)
Fixpoint assign_params (s : list string) (ns : list Z) (output : gmap string string)
  : result (gmap string string) :=
  match ns with
  | [] => Ok output
  | n :: ns' =>
      let* v := py_nth s (n + 1) in
      let* k := py_nth s n in
      assign_params s ns' (<[k := v]> output)
  end.

Definition parseJobName (name : string) : result (gmap string string) :=
  let s := py_split "_" name in
  let* idxFirstInt := first_int s 0 in
  let output := <["baseName" := join_with "_" (py_slice0 s (idxFirstInt - 1))]> ∅ in
  assign_params s (range2 (idxFirstInt - 1) (Z.of_nat (length s))) output.

End ParseJobName.

(** Strings of decimal digits, which [int] accepts. *)
Fixpoint all_digits (s : string) : bool :=
  match s with
  | EmptyString => true
  | String c s' => is_digit c && all_digits s'
  end.

Definition digits_only (s : string) : bool :=
  negb (String.eqb s "") && all_digits s.

(** The items [k1, v1, k2, v2, ...] of a list of pairs, and the dict that
    the assignments [output[k] = v] make of them, in order. *)
Definition flat_pairs (kvs : list (string * string)) : list string :=
  List.flat_map (fun kv => [fst kv; snd kv]) kvs.

Definition assign_all (kvs : list (string * string)) (output : gmap string string)
  : gmap string string :=
  fold_left (fun m kv => <[fst kv := snd kv]> m) kvs output.

(** ** The [x_at_peak_in_xy] test *)

Open Scope Q_scope.

(** [l.index(v)]: the first index whose item equals [v]. *)
Fixpoint py_index (l : list Q) (v : Q) : result nat :=
  match l with
  | [] => Raise (ValueError "value is not in list")
  | a :: l' =>
      if Qeq_bool a v then Ok 0%nat
      else let* i := py_index l' v in Ok (S i)
  end.

(** The [x_at_peak_in_xy] branch from the combined series [xy]. *)
Definition x_at_peak_in_xy (xy : series) : result Q :=
  let x := map fst xy in
  let y := map (fun pt => Qabs (snd pt)) xy in
  let* y_max := py_max y in
  let* i := py_index y y_max in
  of_option IndexError (x !! i).

(** A load-displacement curve with two points of the largest [|y|]. *)
Definition two_peaks : series := [(0, 0); (1, -3); (2, 1); (3, 3)].

Close Scope Q_scope.

(** The test [r] with a computed value attached. *)
Definition with_computed (r : TestSpec) (v : Q) : TestSpec :=
  {| r_type := r_type r; r_identifier := r_identifier r; r_step := r_step r;
     r_referenceValue := r_referenceValue r;
     r_evalStatement := r_evalStatement r; r_computedValue := Some v |}.

(** * Properties *)

(** ** Run gating *)

Lemma only_distortion_ok (errs : list string) :
  only_distortion errs = Ok tt <->
  Forall (fun e => e = "Excessively distorted elements") errs.
Proof.
  induction errs as [|e errs IH]; simpl.
  - split; [constructor | reflexivity].
  - destruct (String.eqb_spec e "Excessively distorted elements") as [He|He]; simpl.
    + rewrite IH. split; [intros H; constructor; assumption | intros H; inversion H; assumption].
    + split; [discriminate | intros H; inversion H; contradiction].
Qed.

(** Whatever the tests of the job are, a run that reports errors passes the
    gate only if the job sets [ignoreAnalysisErrors] to a true value. *)
Lemma report_errors_needs_opt_in (para : gmap string pyval) (dd : DiagnosticData) :
  (0 < numberOfAnalysisErrors dd)%Z ->
  report_errors para dd = Ok tt ->
  exists v, para !! "ignoreAnalysisErrors" = Some v /\ truthy v = true.
Proof.
  intros Hn. unfold report_errors.
  apply Z.ltb_lt in Hn. rewrite Hn.
  destruct (resultTypes para) as [ts|e]; simpl; [|discriminate].
  destruct (if existsb _ ts then _ else _) as [[]|e]; simpl; [|discriminate].
  destruct (para !! "ignoreAnalysisErrors") as [v|]; [|discriminate].
  destruct (truthy v) eqn:Hv; simpl; [|discriminate].
  intros _. exists v. split; [reflexivity | exact Hv].
Qed.

(** C8: an envelope-only job whose run reports a single excessive-distortion
    error, and that does not set [ignoreAnalysisErrors], is aborted with the
    analysis-failed error: the distortion errors are tolerated by the loop
    over the errors, and the test of [ignoreAnalysisErrors] that follows
    raises all the same. *)
Theorem envelope_job_aborts_on_distortion :
  report_errors envelope_job one_distortion = Raise analysis_failed.
Proof. vm_compute. reflexivity. Qed.

(** With [ignoreAnalysisErrors] set the same run passes the gate, and an
    error of another kind still aborts the envelope job. *)
Example envelope_job_opt_in_passes :
  report_errors envelope_job_opt_in one_distortion = Ok tt.
Proof. vm_compute. reflexivity. Qed.

Example envelope_job_opt_in_other_error :
  report_errors envelope_job_opt_in one_other_error = Raise analysis_failed.
Proof. vm_compute. reflexivity. Qed.

(** C10: the warning gate raises exactly when [ignoreWarnings] is present
    with a false value and the run reports at least one warning; a job
    without the key always passes. *)
Theorem report_warnings_spec (para : gmap string pyval) (dd : DiagnosticData) :
  (para !! "ignoreWarnings" = None -> report_warnings para dd = Ok tt) /\
  (forall e, report_warnings para dd = Raise e <->
     e = warnings_found /\
     (exists v, para !! "ignoreWarnings" = Some v /\ truthy v = false) /\
     (0 < numberOfAnalysisWarnings dd)%Z).
Proof.
  unfold report_warnings. split.
  - intros ->. reflexivity.
  - intros e. destruct (para !! "ignoreWarnings") as [v|] eqn:Hk.
    + destruct (truthy v) eqn:Hv; simpl.
      * split; [discriminate|]. intros (_ & (v' & Hv' & Hf) & _).
        injection Hv' as <-. congruence.
      * destruct (0 <? numberOfAnalysisWarnings dd)%Z eqn:Hw.
        -- apply Z.ltb_lt in Hw. split.
           ++ intros [= <-]. split; [reflexivity|]. split; [|assumption].
              exists v. split; [reflexivity | assumption].
           ++ intros (-> & _ & _). reflexivity.
        -- apply Z.ltb_ge in Hw. split; [discriminate|].
           intros (_ & _ & Hlt). lia.
    + split; [discriminate|]. intros (_ & (v & Hv & _) & _). discriminate.
Qed.

(** The gate at a job that asks for strictness and a run with warnings. *)
Lemma report_warnings_spec_witness :
  report_warnings job_strict_warnings three_warnings = Raise warnings_found /\
  report_warnings ∅ three_warnings = Ok tt.
Proof.
  split.
  - apply (proj2 (report_warnings_spec job_strict_warnings three_warnings)).
    split; [reflexivity|]. split; [|reflexivity].
    exists (PBool false). split; reflexivity.
  - apply (proj1 (report_warnings_spec ∅ three_warnings)). reflexivity.
Defined.

(** ** Identifier resolution *)

(** The scan stops at the first region that records the symbol: the regions
    after it are never read. *)
Lemma scan_regions_first (p i nset hr : string) (outs : list string)
    (rest : list (string * list string)) :
  in_list i outs = true ->
  scan_regions p i nset ((hr, outs) :: rest) = scan_regions p i nset [(hr, outs)].
Proof.
  intros H. simpl. rewrite H.
  destruct (_ && _); [|reflexivity].
  destruct (of_option _ _); reflexivity.
Qed.

Lemma scan_regions_skip (p i nset hr : string) (outs : list string)
    (rest : list (string * list string)) :
  in_list i outs = false ->
  scan_regions p i nset ((hr, outs) :: rest) = scan_regions p i nset rest.
Proof. intros H. simpl. rewrite H. reflexivity. Qed.

(** When no region records the symbol the scan raises. *)
Lemma scan_regions_no_match (p i nset : string) (regions : list (string * list string)) :
  Forall (fun r => in_list i (snd r) = false) regions ->
  scan_regions p i nset regions =
  Raise (Exception "Error getting history Output name in _historyOutputNameHelperNode").
Proof.
  induction 1 as [|[hr outs] regions H _ IH]; [reflexivity|].
  simpl in H. rewrite scan_regions_skip by assumption. exact IH.
Qed.

(** C1: in a step whose regions [Node PART-1-1.9] and [Node PART-1-1.10]
    both record [RF1], the identifier [{symbol: RF1, nset: LOADAPP}] is
    resolved to the channel of the first region; no error is raised for the
    second match. *)
Theorem two_matches_resolve_to_first :
  historyOutputNameFromIdentifier two_nodes (IdDict rf1_loadapp) ["Step-1"]
  = Ok (Name "Reaction force: RF1 at Node 9 in NSET LOADAPP").
Proof. vm_compute. reflexivity. Qed.

(** With a single matching region the same channel is the answer, and with
    none the resolution raises. *)
Example one_match_resolves :
  historyOutputNameFromIdentifier one_node (IdDict rf1_loadapp) ["Step-1"]
  = Ok (Name "Reaction force: RF1 at Node 9 in NSET LOADAPP").
Proof. vm_compute. reflexivity. Qed.

Example no_match_raises :
  historyOutputNameFromIdentifier no_node (IdDict rf1_loadapp) ["Step-1"]
  = Raise (Exception "Error getting history Output name in _historyOutputNameHelperNode").
Proof. vm_compute. reflexivity. Qed.

Example two_steps_raise :
  is_ok (historyOutputNameFromIdentifier one_node (IdDict rf1_loadapp) ["Step-1"; "Step-2"])
  = false.
Proof. vm_compute. reflexivity. Qed.

(** ** The [continuous] test *)

Open Scope Q_scope.

(** The branch computes the running maximum over the consecutive pairs of
    the series without its first sample: the change between the first two
    samples does not enter. *)
Lemma continuous_drops_first_sample (referenceValue : Q) (p : Q * Q) (xy : series) :
  continuous referenceValue (p :: xy) = continuous_all_pairs referenceValue xy.
Proof.
  unfold continuous, continuous_all_pairs. f_equal.
  replace (length (p :: xy) - 2)%nat with (length xy - 1)%nat by (simpl; lia).
  rewrite <- (seq_shift (length xy - 1) 1), map_map.
  apply map_ext_in. intros i Hi. apply in_seq in Hi.
  destruct i as [|i]; [lia|].
  simpl. rewrite Nat.sub_0_r. reflexivity.
Qed.

(** C2: on a series whose deltas are 5, 1 and 1, with the reference value 2,
    the branch computes 2, while the running maximum over all the consecutive
    pairs is 5: the loop starts at index 2 and never reads the first delta. *)
Theorem continuous_skips_first_delta :
  continuous 2 jump_first = Ok 2 /\ continuous_all_pairs 2 jump_first = Ok 5.
Proof. split; vm_compute; reflexivity. Qed.

(** The example of the description: the deltas 0.05, 0.5 and 0.02 with the
    reference value 0.1 give 0.5. *)
Example continuous_deltas_example :
  exists v, continuous (1 # 10) deltas_example = Ok v /\ v == 1 # 2.
Proof. eexists. split; [vm_compute; reflexivity | reflexivity]. Qed.

(** A series of two samples has no pair left and the branch raises. *)
Example continuous_two_samples :
  continuous 2 [(0, 0); (1, 5)] = Raise (ValueError "max() arg is an empty sequence").
Proof. reflexivity. Qed.

(** ** The [tabular] test *)

(** C3: the series with the x values 0, 2, 1 is not non-decreasing, and the
    branch does not raise on it: the guard only fires when every difference
    of consecutive x values is negative. *)
Theorem tabular_accepts_unsorted :
  non_decreasing (map fst unsorted_xy) = false /\
  tabular [(1 # 2, 0)] unsorted_xy = Ok [(1 # 2, 2 # 4)].
Proof. split; vm_compute; reflexivity. Qed.

(** The guard fires on a series of one point, whose x values are trivially
    in order. *)
Example tabular_rejects_single_point :
  non_decreasing (map fst single_xy) = true /\
  tabular [(1 # 2, 0)] single_xy = Raise non_monotonic.
Proof. split; vm_compute; reflexivity. Qed.

(** The examples of the description. *)
Example tabular_table_example :
  exists y1 y2,
    tabular [(1 # 2, 0); (3 # 2, 0)] table_xy = Ok [(1 # 2, y1); (3 # 2, y2)]
    /\ y1 == 1 /\ y2 == 3.
Proof. do 2 eexists. split; [vm_compute; reflexivity | split; reflexivity]. Qed.

Example tabular_decreasing_example :
  tabular [(1 # 2, 0); (3 # 2, 0)] decreasing_xy = Raise non_monotonic.
Proof. vm_compute. reflexivity. Qed.

(** ** The [disp_at_zero_y] test *)

(** C4: with the window (-1, 1) the first point of [zero_at_origin] in the
    window is (0, 0), whose [|y|] is within the default tolerance; the branch
    raises the not-found error, because the x of that point equals the
    initial value of [disp_crit]. *)
Theorem disp_at_zero_y_misses_origin :
  window_filter zero_at_origin (-1) 1 = zero_at_origin /\
  Qle_bool (Qabs (snd (0, 0))) (1 # 1000000) = true /\
  disp_at_zero_y (Some (-1, 1)) 0 0 None zero_at_origin = Raise zero_not_found.
Proof. repeat split; vm_compute; reflexivity. Qed.

Example disp_at_zero_y_found :
  disp_at_zero_y (Some (-1, 1)) 0 0 None zero_later = Ok (1 # 2).
Proof. vm_compute. reflexivity. Qed.

(** Without a qualifying point in the window the branch raises. *)
Lemma find_zero_none (zeroTol : Q) (windowed : series) :
  Forall (fun pt => Qle_bool (Qabs (snd pt)) zeroTol = false) windowed ->
  find_zero zeroTol windowed = 0.
Proof.
  induction 1 as [|pt l H _ IH]; [reflexivity|].
  simpl. rewrite H. exact IH.
Qed.

(** ** Window selection *)

(** The window keeps exactly the points with [windowMin < x < windowMax]. *)
Lemma Qltb_lt (a b : Q) : Qltb a b = true <-> a < b.
Proof.
  unfold Qltb. rewrite negb_true_iff. split.
  - intros H. apply Qnot_le_lt. intros Hle. apply Qle_bool_iff in Hle. congruence.
  - intros H. destruct (Qle_bool b a) eqn:E; [|reflexivity].
    apply Qle_bool_iff in E. exfalso. exact (Qlt_not_le _ _ H E).
Qed.

Lemma window_filter_spec (xyData : series) (windowMin windowMax : Q) (p : Q * Q) :
  In p (window_filter xyData windowMin windowMax) <->
  In p xyData /\ windowMin < fst p /\ fst p < windowMax.
Proof.
  unfold window_filter. rewrite filter_In, andb_true_iff, !Qltb_lt. reflexivity.
Qed.

(** An empty window raises the no-points error; so does [min == max]. *)
Lemma select_window_empty (xyData : series) (windowMin windowMax : Q) :
  window_filter xyData windowMin windowMax = [] ->
  select_window xyData windowMin windowMax
  = Raise (Exception "No points found in specified window").
Proof. intros H. unfold select_window. rewrite H. reflexivity. Qed.

Lemma window_filter_degenerate (xyData : series) (windowMin windowMax : Q) :
  windowMin == windowMax -> window_filter xyData windowMin windowMax = [].
Proof.
  intros Heq. destruct (window_filter xyData windowMin windowMax) as [|p l] eqn:E;
    [reflexivity|].
  assert (Hin : In p (window_filter xyData windowMin windowMax)) by (rewrite E; left; reflexivity).
  apply window_filter_spec in Hin. destruct Hin as (_ & H1 & H2).
  rewrite Heq in H1. exfalso. exact (Qlt_irrefl _ (Qlt_trans _ _ _ H1 H2)).
Qed.

(** A window that keeps exactly one point raises: the spacing check takes
    the minimum of an empty list. *)
Lemma select_window_single (xyData : series) (windowMin windowMax : Q) :
  length (window_filter xyData windowMin windowMax) = 1%nat ->
  select_window xyData windowMin windowMax
  = Raise (ValueError "min() arg is an empty sequence").
Proof. intros H. unfold select_window. rewrite H. reflexivity. Qed.

(** C5: the window (0.5, 1.5) keeps the single point (1, 1) of [line3], and
    the selection raises instead of returning that point. *)
Theorem select_window_one_point_raises :
  window_filter line3 (1 # 2) (3 # 2) = [(1, 1)] /\
  select_window line3 (1 # 2) (3 # 2)
  = Raise (ValueError "min() arg is an empty sequence").
Proof. split; vm_compute; reflexivity. Qed.

Example select_window_two_points :
  select_window line3 (1 # 2) (5 # 2) = Ok [(1, 1); (2, 2)].
Proof. vm_compute. reflexivity. Qed.

Example select_window_min_eq_max :
  select_window line3 1 1 = Raise (Exception "No points found in specified window").
Proof. vm_compute. reflexivity. Qed.

Close Scope Q_scope.

(** ** The [finalValue] test *)

Open Scope Q_scope.

(** C9: after a [max] test of the reaction force (which ends at 5), a
    [finalValue] test of the displacement with an evaluation statement gets
    the computed value 5, the last y of the series of the earlier test, while
    the series [xy] selected for it ends at 42: the branch reads
    [xyDataObj], which the evaluation-statement path does not assign. *)
Theorem finalValue_eval_reads_stale_series :
  outcome (collect odb_rf_u no_other_branch empty_env
             [test_max_rf1; test_final_u1_eval "rf"])
  = Ok ([Some 5; Some 5], Some [(0, 7); (10, 42)]).
Proof. vm_compute. reflexivity. Qed.

(** As the first test of a job the same test stops on an unbound name. *)
Example finalValue_eval_first_raises :
  outcome (collect odb_rf_u no_other_branch empty_env [test_final_u1_eval "u"])
  = Raise (NameError "identifier_list").
Proof. vm_compute. reflexivity. Qed.

(** Read positionally, the computed value is the last y of the series. *)
Example finalValue_positional :
  outcome (collect odb_rf_u no_other_branch empty_env [test_max_rf1; test_final_u1])
  = Ok ([Some 5; Some 42], Some [(0, 7); (10, 42)]).
Proof. vm_compute. reflexivity. Qed.


Close Scope Q_scope.

(** ** Interpolation on a negative domain *)

Open Scope Q_scope.

Lemma Qltb_false (a b : Q) : Qltb a b = false <-> b <= a.
Proof.
  unfold Qltb. rewrite negb_false_iff. apply Qle_bool_iff.
Qed.

Lemma neg_one_mult (x : Q) : (-1 # 1) * x = - x.
Proof. destruct x as [[|p|p] d]; reflexivity. Qed.

Lemma Qabs_neg_opp (v : Q) : v < 0 -> Qabs v = - v.
Proof.
  destruct v as [[|p|p] d]; unfold Qlt; simpl; intros H; try reflexivity; lia.
Qed.

Lemma map_Qabs_negative (xp : list Q) :
  Forall (fun v => v < 0) xp -> map Qabs xp = map Qopp xp.
Proof.
  induction 1 as [|v xp Hv _ IH]; [reflexivity|].
  simpl. rewrite IH, (Qabs_neg_opp v Hv). reflexivity.
Qed.

Lemma all_negative_forallb (xp : list Q) :
  Forall (fun v => v < 0) xp -> forallb (fun i => Qltb i 0) xp = true.
Proof.
  induction 1 as [|v xp Hv _ IH]; [reflexivity|].
  simpl. rewrite IH, andb_true_r. apply Qltb_lt. exact Hv.
Qed.

(** The sign flip of a strictly decreasing list is strictly increasing. *)
Lemma flipped_diff_positive (xp : list Q) :
  strictly_decreasing xp ->
  forallb (fun d => Qltb 0 d) (np_diff (map Qopp xp)) = true.
Proof.
  induction xp as [|a [|b t] IH]; try reflexivity.
  intros [Hba Ht]. change (map Qopp (a :: b :: t)) with (- a :: map Qopp (b :: t)).
  change (map Qopp (b :: t)) with (- b :: map Qopp t) at 1.
  cbn [np_diff forallb]. apply andb_true_iff. split.
  - apply Qltb_lt. lra.
  - exact (IH Ht).
Qed.

(** On a single sample point [np.interp] is constant. *)
Lemma np_interp_single (x v : Q) (fp : list Q) :
  np_interp x [v] fp =
  match fp with
  | [f0] => Ok f0
  | _ => Raise (ValueError "fp and xp are not of the same length.")
  end.
Proof.
  destruct fp as [|f0 [|f1 fp]]; try reflexivity.
  unfold np_interp. cbn [length Nat.eqb negb List.last].
  destruct (Qltb v x) eqn:E1; [reflexivity|].
  destruct (Qltb x v) eqn:E2; [reflexivity|].
  cbn [count_le]. unfold Qltb in E2. apply negb_false_iff in E2. rewrite E2.
  reflexivity.
Qed.

(** C6, amended: for a list [xp] of negative values in strictly decreasing
    order, and every query [x] and ordinates [fp], [interpolate(x, xp, fp)]
    equals [interpolate(-x, [-v for v in xp], fp)]. *)
Theorem interpolate_sign_flip (x : Q) (xp fp : list Q) :
  Forall (fun v => v < 0) xp ->
  strictly_decreasing xp ->
  interpolate x xp fp = interpolate (- x) (map Qopp xp) fp.
Proof.
  intros Hneg Hdec.
  destruct xp as [|a [|b t]].
  - reflexivity.
  - unfold interpolate. cbn [map np_diff forallb].
    rewrite !np_interp_single. reflexivity.
  - unfold interpolate at 2. rewrite (flipped_diff_positive _ Hdec).
    assert (Hfirst : forallb (fun d => Qltb 0 d) (np_diff (a :: b :: t)) = false).
    { cbn [np_diff forallb]. apply andb_false_iff. left.
      apply Qltb_false. destruct Hdec as [Hba _]. lra. }
    unfold interpolate. rewrite Hfirst, (all_negative_forallb _ Hneg).
    rewrite (map_Qabs_negative _ Hneg), neg_one_mult. reflexivity.
Qed.

(** The sign flip at the domain -1, -2. *)
Lemma interpolate_sign_flip_witness :
  interpolate (-3 # 2) [-1; -2] [10; 20]
  = interpolate (- (-3 # 2)) (map Qopp [-1; -2]) [10; 20].
Proof.
  apply interpolate_sign_flip.
  - repeat constructor.
  - simpl. split; [reflexivity | exact I].
Defined.

(** On the ascending negative domain -2, -1 the left side interpolates and
    the right side, whose domain 2, 1 is descending and positive, raises. *)
Lemma interpolate_sign_flip_ascending_fails :
  Forall (fun v => v < 0) [-2; -1] /\
  interpolate (-3 # 2) [-2; -1] [10; 20] = Ok (30 # 2) /\
  interpolate (- (-3 # 2)) (map Qopp [-2; -1]) [10; 20]
  = Raise (Exception "Functionality to interpolate datasets that traverse 0 or are unsorted is not implemented").
Proof.
  split; [repeat constructor | split; vm_compute; reflexivity].
Qed.

(** An unsorted negative domain: the left side returns a value and the right
    side raises. *)
Example interpolate_sign_flip_unsorted_fails :
  is_ok (interpolate (-3 # 2) [-1; -3; -2] [10; 20; 30]) = true /\
  is_ok (interpolate (- (-3 # 2)) (map Qopp [-1; -3; -2]) [10; 20; 30]) = false.
Proof. split; vm_compute; reflexivity. Qed.

Close Scope Q_scope.

(** * Further properties *)

(** ** The symbols of the output database *)

Lemma in_list_In (s : string) (l : list string) : in_list s l = true <-> List.In s l.
Proof.
  unfold in_list. rewrite existsb_exists. split.
  - intros (x & Hx & He). apply String.eqb_eq in He. subst. exact Hx.
  - intros H. exists s. split; [exact H | apply String.eqb_refl].
Qed.

(** A loop that only ever appends what each turn brings, and keeps the list
    free of duplicates. *)
Lemma fold_left_collects {B : Type} (f : list string -> B -> list string)
    (elems : B -> list string) :
  (forall acc b, List.NoDup acc ->
     List.NoDup (f acc b) /\
     forall x, List.In x (f acc b) <-> List.In x acc \/ List.In x (elems b)) ->
  forall (l : list B) (acc : list string), List.NoDup acc ->
    List.NoDup (fold_left f l acc) /\
    forall x, List.In x (fold_left f l acc) <->
              List.In x acc \/ exists b, List.In b l /\ List.In x (elems b).
Proof.
  intros Hf. induction l as [|b l IH]; intros acc Hacc; simpl.
  - split; [exact Hacc|]. intros x. split; [auto | intros [H|(b & [] & _)]; exact H].
  - destruct (Hf acc b Hacc) as [Hnd Hin].
    destruct (IH (f acc b) Hnd) as [Hnd' Hin'].
    split; [exact Hnd'|]. intros x. rewrite Hin', Hin. split.
    + intros [[H|H]|(b' & Hb' & Hx)]; [left; exact H | right; exists b; auto | right; exists b'; auto].
    + intros [H|(b' & [<-|Hb'] & Hx)]; [left; left; exact H | left; right; exact Hx | right; exists b'; auto].
Qed.

Lemma append_new_collects (acc : list string) (ho : string) :
  List.NoDup acc ->
  List.NoDup (if negb (in_list ho acc) then (acc ++ [ho])%list else acc) /\
  forall x, List.In x (if negb (in_list ho acc) then (acc ++ [ho])%list else acc)
            <-> List.In x acc \/ List.In x [ho].
Proof.
  intros Hacc. destruct (in_list ho acc) eqn:E; simpl.
  - apply in_list_In in E. split; [exact Hacc|]. intros x. split; [auto|].
    intros [H|[<-|[]]]; assumption.
  - split.
    + apply List.NoDup_app; [exact Hacc | repeat constructor; intros [] |].
      intros a Ha [<-|[]]. apply in_list_In in Ha. congruence.
    + intros x. apply List.in_app_iff.
Qed.

Lemma add_outputs_collects (outs acc : list string) :
  List.NoDup acc ->
  List.NoDup (fold_left (fun outputs ho =>
                if negb (in_list ho outputs) then (outputs ++ [ho])%list else outputs)
              outs acc) /\
  forall x, List.In x (fold_left (fun outputs ho =>
                if negb (in_list ho outputs) then (outputs ++ [ho])%list else outputs)
              outs acc) <-> List.In x acc \/ List.In x outs.
Proof.
  intros Hacc.
  destruct (fold_left_collects _ (fun ho => [ho]) append_new_collects outs acc Hacc)
    as [Hnd Hin].
  split; [exact Hnd|]. intros x. rewrite Hin. split.
  - intros [Hx|(b & Hb & [<-|[]])]; auto.
  - intros [Hx|Hx]; [left; exact Hx | right; exists x; split; [exact Hx | left; reflexivity]].
Qed.

Lemma add_regions_collects (regions : list (string * list string)) (acc : list string) :
  List.NoDup acc ->
  List.NoDup (fold_left (fun outputs (hr : string * list string) =>
                fold_left (fun outputs ho =>
                  if negb (in_list ho outputs) then (outputs ++ [ho])%list else outputs)
                  (snd hr) outputs) regions acc) /\
  forall x, List.In x (fold_left (fun outputs (hr : string * list string) =>
                fold_left (fun outputs ho =>
                  if negb (in_list ho outputs) then (outputs ++ [ho])%list else outputs)
                  (snd hr) outputs) regions acc)
            <-> List.In x acc \/ exists hr, List.In hr regions /\ List.In x (snd hr).
Proof.
  apply (fold_left_collects _ snd). intros acc' hr Hacc'.
  apply add_outputs_collects. exact Hacc'.
Qed.

(** X1: [listOfHistoryOutputSymbols] returns every history output key of every
    region of every step, and each of them once. *)
Theorem listOfHistoryOutputSymbols_spec (odb : Odb) :
  List.NoDup (listOfHistoryOutputSymbols odb) /\
  forall ho, List.In ho (listOfHistoryOutputSymbols odb) <->
    exists s hr, List.In s (odb_steps odb) /\ List.In hr (snd s) /\ List.In ho (snd hr).
Proof.
  unfold listOfHistoryOutputSymbols.
  destruct (fold_left_collects _
              (fun s : string * list (string * list string) =>
                 List.flat_map snd (snd s))
              (fun acc s Hacc =>
                 let (Hnd, Hin) := add_regions_collects (snd s) acc Hacc in
                 conj Hnd (fun x => iff_trans (Hin x)
                   (or_iff_compat_l _ (iff_sym (in_flat_map snd (snd s) x)))))
              (odb_steps odb) [] (List.NoDup_nil _)) as [Hnd Hin].
  split; [exact Hnd|].
  intros ho. rewrite Hin. split.
  - intros [[]|(s & Hs & Hx)]. apply in_flat_map in Hx. destruct Hx as (hr & Hhr & Hx).
    exists s, hr. auto.
  - intros (s & hr & Hs & Hhr & Hx). right. exists s. split; [exact Hs|].
    apply in_flat_map. exists hr. auto.
Qed.

(** ** More on identifier resolution *)

(** X2: a list of identifiers resolves to the tuple of the names of its items,
    in order, and fails as soon as one item fails. *)
Theorem resolve_list_items (odb : Odb) (l : list Identifier) (steps : list string)
    (v : VarName) :
  historyOutputNameFromIdentifier odb (IdList l) steps = Ok v <->
  exists ns, v = Names ns /\
    Forall2 (fun i n => historyOutputNameFromIdentifier odb i steps = Ok n) l ns.
Proof.
  cbn [historyOutputNameFromIdentifier].
  set (each := fix each (l : list Identifier) : result (list VarName) :=
         match l with
         | [] => Ok []
         | i :: l' =>
             let* n := historyOutputNameFromIdentifier odb i steps in
             let* ns := each l' in Ok (n :: ns)
         end).
  assert (Heach : forall l ns, each l = Ok ns <->
            Forall2 (fun i n => historyOutputNameFromIdentifier odb i steps = Ok n) l ns).
  { clear. induction l as [|i l IH]; intros ns; simpl.
    - split; [intros [= <-]; constructor | intros H; inversion H; reflexivity].
    - destruct (historyOutputNameFromIdentifier odb i steps) as [n|e] eqn:Hi; simpl.
      + destruct (each l) as [ns'|e] eqn:Hl; simpl.
        * split.
          -- intros [= <-]. constructor; [exact Hi | apply IH; reflexivity].
          -- intros H. inversion H as [|? n' ? ns'' Hn Hns]; subst.
             apply IH in Hns. congruence.
        * split; [discriminate|]. intros H. inversion H as [|? n' ? ns'' Hn Hns]; subst.
          apply IH in Hns. discriminate.
      + split; [discriminate|]. intros H. inversion H; subst. congruence. }
  split.
  - destruct (each l) as [ns|e] eqn:Hl; simpl; [|discriminate].
    intros [= <-]. exists ns. split; [reflexivity | apply Heach; exact Hl].
  - intros (ns & -> & H). apply Heach in H. rewrite H. reflexivity.
Qed.

Lemma resolve_list_items_witness :
  historyOutputNameFromIdentifier one_node (IdList [IdStr "ALLIE"; IdDict rf1_loadapp])
    ["Step-1"]
  = Ok (Names [Name "ALLIE"; Name "Reaction force: RF1 at Node 9 in NSET LOADAPP"]).
Proof.
  apply (proj2 (resolve_list_items one_node _ _ _)).
  eexists. split; [reflexivity|].
  repeat constructor.
Defined.

(** The loop that replaces the symbol by the spelling of the database. *)
Lemma fold_spelling (l : list string) (acc : string) :
  let r := fold_left (fun i sym => if String.eqb (lower i) (lower sym) then sym else i) l acc in
  lower r = lower acc /\
  (r = acc \/ List.In r l) /\
  ((exists s, List.In s l /\ lower s = lower acc) -> List.In r l).
Proof.
  revert acc. induction l as [|s l IH]; intros acc; cbn zeta; simpl.
  - split; [reflexivity|]. split; [left; reflexivity | intros (s & [] & _)].
  - set (acc' := if String.eqb (lower acc) (lower s) then s else acc).
    assert (Hacc' : lower acc' = lower acc /\ (acc' = acc \/ acc' = s)
                     /\ (lower s = lower acc -> acc' = s)).
    { unfold acc'. destruct (String.eqb_spec (lower acc) (lower s)) as [E|E].
      - split; [symmetry; exact E|]. split; [right; reflexivity | reflexivity].
      - split; [reflexivity|]. split; [left; reflexivity | intros H; congruence]. }
    destruct Hacc' as (Hlow & Hor & Heq).
    destruct (IH acc') as (H1 & H2 & H3). cbn zeta in *.
    split; [congruence|]. split.
    + destruct H2 as [H2|H2]; [|right; right; exact H2].
      rewrite H2. destruct Hor as [->| ->]; [left; reflexivity | right; left; reflexivity].
    + intros (s0 & [<-|Hin] & Hs0).
      * destruct H2 as [H2|H2]; [left; rewrite H2; symmetry; exact (Heq Hs0) | right; exact H2].
      * right. apply H3. exists s0. split; [exact Hin | congruence].
Qed.

(** X3: an element identifier with a position and an elset resolves to the
    template with a spelling of its symbol that differs at most in case: the
    symbol itself when the database records it, and otherwise a symbol of the
    database when one matches without regard to case. *)
Theorem element_symbol_spelling (odb : Odb) (prefixString : string)
    (d : gmap string string) (steps : list string) (i position elset : string) :
  d !! "symbol" = Some i -> d !! "position" = Some position -> d !! "elset" = Some elset ->
  exists sym,
    _historyOutputNameHelperElement odb prefixString d steps
    = Ok (prefixString ++ sym ++ " at " ++ position ++ " in ELSET " ++ elset) /\
    lower sym = lower i /\
    (List.In i (listOfHistoryOutputSymbols odb) -> sym = i) /\
    ((exists s, List.In s (listOfHistoryOutputSymbols odb) /\ lower s = lower i) ->
     List.In sym (listOfHistoryOutputSymbols odb)).
Proof.
  intros Hi Hp He. unfold _historyOutputNameHelperElement. rewrite Hi, Hp, He. simpl.
  destruct (in_list i (listOfHistoryOutputSymbols odb)) eqn:Hin; simpl.
  - exists i. apply in_list_In in Hin. repeat split; auto.
  - eexists. split; [reflexivity|].
    destruct (fold_spelling (listOfHistoryOutputSymbols odb) i) as (H1 & H2 & H3).
    cbn zeta in *. split; [exact H1|]. split; [|exact H3].
    intros Habs. apply in_list_In in Habs. congruence.
Qed.

Lemma element_symbol_spelling_witness :
  exists sym,
    _historyOutputNameHelperElement odb_stress "Stress components: " id_s11_lower ["Step-1"]
    = Ok ("Stress components: " ++ sym ++ " at " ++ "Element 1 Int Point 1"
          ++ " in ELSET " ++ "DAMAGEABLEROW") /\
    lower sym = lower "s11" /\
    List.In sym (listOfHistoryOutputSymbols odb_stress).
Proof.
  destruct (element_symbol_spelling odb_stress "Stress components: " id_s11_lower
              ["Step-1"] "s11" "Element 1 Int Point 1" "DAMAGEABLEROW")
    as (sym & Hres & Hlow & _ & Hin); [vm_compute; reflexivity ..|].
  exists sym. split; [exact Hres|]. split; [exact Hlow|].
  apply Hin. exists "S11". split; [vm_compute; left; reflexivity | reflexivity].
Defined.

(** X4: the scan of the regions is decided by the first region that records the
    symbol: the regions before it are skipped, the regions after it are not
    read. *)
Theorem scan_regions_decided_by_first (p i nset hr : string) (outs : list string)
    (pre post : list (string * list string)) :
  Forall (fun r => in_list i (snd r) = false) pre ->
  in_list i outs = true ->
  scan_regions p i nset (pre ++ (hr, outs) :: post)%list
  = scan_regions p i nset [(hr, outs)].
Proof.
  intros Hpre Hin. induction Hpre as [|[hr' outs'] pre Hr _ IH].
  - apply scan_regions_first. exact Hin.
  - simpl in Hr. change (((hr', outs') :: pre) ++ (hr, outs) :: post)%list
      with ((hr', outs') :: (pre ++ (hr, outs) :: post))%list.
    rewrite scan_regions_skip by exact Hr. exact IH.
Qed.

Lemma scan_regions_decided_by_first_witness :
  scan_regions "Reaction force: " "RF1" "LOADAPP"
    ([("Element PART-1-1.1 Int Point 1", ["S11"])]
     ++ ("Node PART-1-1.9", ["RF1"; "U1"]) :: [("Node PART-1-1.10", ["RF1"])])%list
  = scan_regions "Reaction force: " "RF1" "LOADAPP" [("Node PART-1-1.9", ["RF1"; "U1"])].
Proof.
  apply scan_regions_decided_by_first.
  - repeat constructor.
  - reflexivity.
Defined.

(** X5: a strain symbol [E<digits>] is refused with [NotImplementedError],
    whatever the other keys of the identifier, the database and the steps. *)
Theorem strain_symbol_unsupported (odb : Odb) (d : gmap string string)
    (steps : list string) (c : ascii) (rest : string) :
  d !! "symbol" = Some (String "E" (String c rest)) ->
  is_digit c = true ->
  historyOutputNameFromIdentifier odb (IdDict d) steps = Raise NotImplementedError.
Proof.
  intros Hs Hc. cbn [historyOutputNameFromIdentifier]. rewrite Hs.
  unfold re_match. simpl. rewrite Hc. reflexivity.
Qed.

Lemma strain_symbol_unsupported_witness :
  historyOutputNameFromIdentifier odb_stress (IdDict id_e11) ["Step-1"]
  = Raise NotImplementedError.
Proof.
  apply (strain_symbol_unsupported odb_stress id_e11 ["Step-1"] "1" "1").
  - vm_compute. reflexivity.
  - reflexivity.
Defined.

(** ** Interpolation on an ascending domain *)

Open Scope Q_scope.

(** [np.all(np.diff(xp) > 0)] *)
Lemma ascending_cons (a b : Q) (t : list Q) :
  forallb (fun d => Qltb 0 d) (np_diff (a :: b :: t)) = true <->
  a < b /\ forallb (fun d => Qltb 0 d) (np_diff (b :: t)) = true.
Proof.
  cbn [np_diff forallb]. rewrite andb_true_iff, Qltb_lt. split; intros [H1 H2]; split;
    try exact H2; lra.
Qed.

Lemma ascending_head_lt (a : Q) (t : list Q) (k : nat) :
  forallb (fun d => Qltb 0 d) (np_diff (a :: t)) = true ->
  (k < length t)%nat -> a < nth k t 0.
Proof.
  revert a k. induction t as [|b t IH]; intros a k Hasc Hk; [simpl in Hk; lia|].
  apply ascending_cons in Hasc. destruct Hasc as [Hab Ht].
  destruct k as [|k]; [exact Hab|].
  simpl in Hk. apply Qlt_trans with b; [exact Hab|].
  apply IH; [exact Ht | lia].
Qed.

(** On an ascending domain the number of sample points up to a node is its
    index plus one. *)
Lemma count_le_node (xp : list Q) (i : nat) :
  forallb (fun d => Qltb 0 d) (np_diff xp) = true ->
  (i < length xp)%nat ->
  count_le (nth i xp 0) xp = S i.
Proof.
  revert i. induction xp as [|a t IH]; intros i Hasc Hi; [simpl in Hi; lia|].
  destruct i as [|i].
  - cbn [nth count_le].
    replace (Qle_bool a a) with true by (symmetry; apply Qle_bool_iff; apply Qle_refl).
    f_equal. destruct t as [|b t]; [reflexivity|].
    apply ascending_cons in Hasc. destruct Hasc as [Hab _].
    cbn [count_le]. destruct (Qle_bool b a) eqn:E; [|reflexivity].
    apply Qle_bool_iff in E. lra.
  - cbn [nth count_le]. simpl in Hi.
    assert (Hlt : a < nth i t 0) by (apply ascending_head_lt; [exact Hasc | lia]).
    replace (Qle_bool a (nth i t 0)) with true
      by (symmetry; apply Qle_bool_iff; apply Qlt_le_weak; exact Hlt).
    f_equal. apply IH; [|lia].
    destruct t as [|b t]; [reflexivity|]. apply ascending_cons in Hasc. apply Hasc.
Qed.

Lemma last_as_nth {A : Type} (l : list A) (d d' : A) :
  l <> [] -> List.last l d = nth (length l - 1) l d'.
Proof.
  induction l as [|a t IH]; [congruence|]. intros _.
  destruct t as [|b t]; [reflexivity|].
  change (List.last (a :: b :: t) d) with (List.last (b :: t) d).
  rewrite IH by discriminate. simpl. rewrite Nat.sub_0_r. reflexivity.
Qed.

Lemma ascending_nth_le (xp : list Q) (i j : nat) :
  forallb (fun d => Qltb 0 d) (np_diff xp) = true ->
  (i <= j)%nat -> (j < length xp)%nat -> nth i xp 0 <= nth j xp 0.
Proof.
  revert i j. induction xp as [|a t IH]; intros i j Hasc Hij Hj; [simpl in Hj; lia|].
  destruct i as [|i], j as [|j]; try lia.
  - apply Qle_refl.
  - cbn [nth]. apply Qlt_le_weak. apply ascending_head_lt; [exact Hasc | simpl in Hj; lia].
  - cbn [nth]. simpl in Hj. apply IH; [|lia|lia].
    destruct t as [|b t]; [reflexivity|]. apply ascending_cons in Hasc. apply Hasc.
Qed.

(** X6: on a strictly ascending domain [interpolate] returns, at a sample point,
    the ordinate of that point. *)
Theorem interpolate_at_node (xp fp : list Q) (i : nat) :
  forallb (fun d => Qltb 0 d) (np_diff xp) = true ->
  length fp = length xp ->
  (i < length xp)%nat ->
  interpolate (nth i xp 0) xp fp = Ok (nth i fp 0).
Proof.
  intros Hasc Hlen Hi. unfold interpolate. rewrite Hasc.
  destruct xp as [|x0 xt]; [simpl in Hi; lia|].
  destruct fp as [|f0 ft]; [discriminate|].
  unfold np_interp.
  set (xp := x0 :: xt) in *. set (fp := f0 :: ft) in *.
  rewrite Hlen, Nat.eqb_refl. cbn [negb].
  assert (Hne : xp <> []) by discriminate.
  rewrite (last_as_nth xp x0 0 Hne).
  assert (H1 : Qltb (nth (length xp - 1) xp 0) (nth i xp 0) = false).
  { apply Qltb_false. apply ascending_nth_le; [exact Hasc | lia | lia]. }
  rewrite H1.
  assert (H2 : Qltb (nth i xp 0) x0 = false).
  { apply Qltb_false. change x0 with (nth 0 xp 0).
    apply ascending_nth_le; [exact Hasc | lia | exact Hi]. }
  rewrite H2. rewrite (count_le_node xp i Hasc Hi).
  replace (S i - 1)%nat with i by lia.
  destruct (i =? length xp - 1)%nat; [reflexivity|].
  replace (Qeq_bool (nth i xp 0) (nth i xp 0)) with true
    by (symmetry; apply Qeq_bool_iff; reflexivity).
  reflexivity.
Qed.

Lemma interpolate_at_node_witness :
  interpolate (nth 1%nat [0; 1; 2] 0) [0; 1; 2] [0; 2; 4] = Ok (nth 1%nat [0; 2; 4] 0).
Proof.
  apply interpolate_at_node.
  - reflexivity.
  - reflexivity.
  - simpl. lia.
Defined.

Close Scope Q_scope.

(** ** Resampling *)

Open Scope Q_scope.

Lemma np_linspace_length (start stop : Q) (num : nat) :
  length (np_linspace start stop num) = num.
Proof.
  destruct num as [|[|n]]; try reflexivity.
  unfold np_linspace. rewrite length_app, length_map, length_seq. simpl. lia.
Qed.

(** With a sample point and as many ordinates as sample points, [np.interp]
    returns a value. *)
Lemma np_interp_total (x : Q) (xp fp : list Q) :
  xp <> [] -> length fp = length xp -> exists y, np_interp x xp fp = Ok y.
Proof.
  intros Hne Hlen. destruct xp as [|x0 xt]; [congruence|].
  destruct fp as [|f0 ft]; [discriminate|].
  unfold np_interp. rewrite Hlen, Nat.eqb_refl. cbn [negb].
  repeat match goal with |- context [if ?b then _ else _] => destruct b end; eexists; reflexivity.
Qed.

Lemma interp_each_total (xs xp fp : list Q) :
  xp <> [] -> length fp = length xp ->
  exists ys, interp_each xs xp fp = Ok ys /\ length ys = length xs.
Proof.
  intros Hne Hlen. induction xs as [|x xs (ys & Hys & Hl)]; simpl.
  - exists []. split; reflexivity.
  - destruct (np_interp_total x xp fp Hne Hlen) as (y & Hy). rewrite Hy, Hys. simpl.
    exists (y :: ys). split; [reflexivity | simpl; congruence].
Qed.

Lemma ascending_first_last (p0 : Q * Q) (data : series) :
  forallb (fun d => Qltb 0 d) (np_diff (map fst (p0 :: data))) = true ->
  data <> [] ->
  fst p0 < fst (List.last (p0 :: data) p0).
Proof.
  intros Hasc Hne.
  rewrite (last_as_nth (p0 :: data) p0 (0, 0)) by discriminate.
  change (length (p0 :: data) - 1)%nat with (S (length data) - 1)%nat.
  replace (S (length data) - 1)%nat with (S (length data - 1))
    by (destruct data; [congruence | simpl; lia]).
  cbn [nth]. change 0 with (fst (0, 0)) at 2. rewrite <- map_nth.
  apply (ascending_head_lt (fst p0) (map fst data)); [exact Hasc|].
  rewrite length_map. destruct data; [congruence | simpl; lia].
Qed.

Lemma map_fst_combine_same {A B : Type} (l : list A) (l' : list B) :
  length l = length l' -> map fst (combine l l') = l.
Proof.
  revert l'. induction l as [|a l IH]; intros [|b l'] H; try discriminate; [reflexivity|].
  simpl. f_equal. apply IH. simpl in H. congruence.
Qed.

(** X8: on a series whose x values are strictly ascending, [resample] returns
    exactly [numPts] points, and their x values are the evenly spaced points
    from the first x to the last x of the series. *)
Theorem resample_ascending (data : series) (numPts : nat) (p0 : Q * Q) :
  forallb (fun d => Qltb 0 d) (np_diff (map fst data)) = true ->
  (2 <= length data)%nat ->
  exists r,
    resample data numPts = Ok r /\
    length r = numPts /\
    map fst r = np_linspace (fst (nth 0 data p0))
                  (fst (nth (length data - 1) data p0)) numPts.
Proof.
  intros Hasc Hlen. destruct data as [|q0 data]; [simpl in Hlen; lia|].
  assert (Hne : data <> []) by (destruct data; [simpl in Hlen; lia | discriminate]).
  pose proof (ascending_first_last q0 data Hasc Hne) as Hlt.
  unfold resample. apply Qltb_lt in Hlt. rewrite Hlt.
  unfold interpolate_array. rewrite Hasc. unfold np_interp_array.
  cbn [map length]. rewrite !length_map, Nat.eqb_refl. cbn [negb].
  destruct (interp_each_total
              (np_linspace (fst q0) (fst (List.last (q0 :: data) q0)) numPts)
              (fst q0 :: map fst data) (snd q0 :: map snd data)) as (ys & Hys & Hl);
    [discriminate | simpl; rewrite !length_map; reflexivity |].
  rewrite Hys. cbn [rbind]. eexists. split; [reflexivity|].
  rewrite np_linspace_length in Hl.
  split.
  - rewrite length_combine, np_linspace_length, Hl. apply Nat.min_id.
  - rewrite (last_as_nth (q0 :: data) q0 p0) by discriminate. cbn [nth].
    apply map_fst_combine_same. rewrite np_linspace_length. congruence.
Qed.

Lemma resample_ascending_witness :
  exists r,
    resample table_xy 5 = Ok r /\
    length r = 5%nat /\
    map fst r = np_linspace (fst (nth 0 table_xy (0, 0)))
                  (fst (nth (length table_xy - 1) table_xy (0, 0))) 5.
Proof.
  apply (resample_ascending table_xy 5 (0, 0)).
  - reflexivity.
  - simpl. lia.
Defined.

(** A domain with a step that does not go up is not ascending, and a domain
    with a value that is not negative is not all negative. *)
Lemma not_ascending (xp : list Q) (i : nat) :
  (S i < length xp)%nat -> nth (S i) xp 0 <= nth i xp 0 ->
  forallb (fun d => Qltb 0 d) (np_diff xp) = false.
Proof.
  revert i. induction xp as [|a [|b t] IH]; intros i Hi Hle; try (simpl in Hi; lia).
  cbn [np_diff forallb]. apply andb_false_iff. destruct i as [|i].
  - left. apply Qltb_false. cbn [nth] in Hle. lra.
  - right. apply (IH i); [simpl in Hi |- *; lia | exact Hle].
Qed.

Lemma not_all_negative (xp : list Q) (v : Q) :
  List.In v xp -> 0 <= v -> forallb (fun i => Qltb i 0) xp = false.
Proof.
  intros Hin Hv. induction xp as [|a t IH]; [destruct Hin|].
  cbn [forallb]. apply andb_false_iff. destruct Hin as [->|Hin].
  - left. apply Qltb_false. exact Hv.
  - right. exact (IH Hin).
Qed.

(** X7: [interpolate] refuses a domain that has a step that does not go up and
    a value that is not negative, whatever the query and the ordinates. *)
Theorem interpolate_unsupported (x : Q) (xp fp : list Q) (i : nat) (v : Q) :
  (S i < length xp)%nat -> nth (S i) xp 0 <= nth i xp 0 ->
  List.In v xp -> 0 <= v ->
  interpolate x xp fp = Raise unsupported_domain.
Proof.
  intros Hi Hle Hin Hv. unfold interpolate.
  rewrite (not_ascending xp i Hi Hle), (not_all_negative xp v Hin Hv). reflexivity.
Qed.

Lemma interpolate_unsupported_witness :
  interpolate (1 # 2) [2; 1; 0] [0; 2; 4] = Raise unsupported_domain.
Proof.
  apply (interpolate_unsupported (1 # 2) [2; 1; 0] [0; 2; 4] 0 2).
  - simpl. lia.
  - simpl. unfold Qle. simpl. lia.
  - left. reflexivity.
  - unfold Qle. simpl. lia.
Defined.

(** X9: [resample] fails on such a series too: taking the smaller end of the
    series as [xMin] does not make a series given in descending x order
    acceptable to [interpolate]. *)
Theorem resample_unsupported (data : series) (numPts i : nat) (p : Q * Q) :
  (S i < length data)%nat ->
  fst (nth (S i) data (0, 0)) <= fst (nth i data (0, 0)) ->
  List.In p data -> 0 <= fst p ->
  resample data numPts = Raise unsupported_domain.
Proof.
  intros Hi Hle Hin Hp. destruct data as [|q0 data]; [destruct Hin|].
  unfold resample.
  destruct (if Qltb _ _ then _ else _) as [xMin xMax].
  unfold interpolate_array.
  rewrite (not_ascending (map fst (q0 :: data)) i).
  - rewrite (not_all_negative (map fst (q0 :: data)) (fst p)); [reflexivity | | exact Hp].
    apply in_map. exact Hin.
  - rewrite length_map. exact Hi.
  - change 0 with (fst (0, 0)). rewrite !map_nth. exact Hle.
Qed.

Lemma resample_unsupported_witness :
  resample descending_data 3 = Raise unsupported_domain.
Proof.
  apply (resample_unsupported descending_data 3 0 (2, 0)).
  - simpl. lia.
  - simpl. unfold Qle. simpl. lia.
  - left. reflexivity.
  - simpl. unfold Qle. simpl. lia.
Defined.

Close Scope Q_scope.

(** ** Job names *)

Section ParseJobNameFacts.

Variable int_ok : string -> bool.

Lemma first_int_none (s : list string) (i : Z) :
  Forall (fun t => int_ok t = false) s -> first_int int_ok s i = Raise IndexError.
Proof.
  intros H. revert i. induction H as [|t s Ht _ IH]; intros i; simpl; [reflexivity|].
  rewrite Ht. apply IH.
Qed.

Lemma first_int_found (pre rest : list string) (v : string) (i : Z) :
  Forall (fun t => int_ok t = false) pre -> int_ok v = true ->
  first_int int_ok (pre ++ v :: rest)%list i = Ok (i + Z.of_nat (length pre))%Z.
Proof.
  intros H Hv. revert i. induction H as [|t pre Ht _ IH]; intros i; simpl first_int.
  - rewrite Hv. f_equal. simpl. lia.
  - rewrite Ht, IH. f_equal. simpl length. lia.
Qed.

Lemma py_nth_lookup {A : Type} (l : list A) (n : nat) (a : A) :
  l !! n = Some a -> py_nth l (Z.of_nat n) = Ok a.
Proof.
  intros H. pose proof (lookup_lt_Some _ _ _ H) as Hlt. unfold py_nth.
  replace (0 <=? Z.of_nat n)%Z with true by (symmetry; apply Z.leb_le; lia).
  replace (Z.of_nat n <? Z.of_nat (length l))%Z with true by (symmetry; apply Z.ltb_lt; lia).
  simpl. rewrite Nat2Z.id, H. reflexivity.
Qed.

Lemma py_nth_end {A : Type} (l : list A) :
  py_nth l (Z.of_nat (length l)) = Raise IndexError.
Proof.
  unfold py_nth.
  replace (Z.of_nat (length l) <? Z.of_nat (length l))%Z with false
    by (symmetry; apply Z.ltb_ge; lia).
  replace (Z.of_nat (length l) <? 0)%Z with false by (symmetry; apply Z.ltb_ge; lia).
  rewrite !andb_false_r. reflexivity.
Qed.

Lemma flat_pairs_length (kvs : list (string * string)) :
  length (flat_pairs kvs) = (2 * length kvs)%nat.
Proof. induction kvs as [|kv kvs IH]; simpl; [reflexivity | rewrite IH; lia]. Qed.

Lemma flat_pairs_lookup (kvs : list (string * string)) (j : nat) (kv : string * string) :
  kvs !! j = Some kv ->
  flat_pairs kvs !! (2 * j)%nat = Some (fst kv) /\
  flat_pairs kvs !! (2 * j + 1)%nat = Some (snd kv).
Proof.
  revert j. induction kvs as [|kv0 kvs IH]; intros j H; [discriminate|].
  destruct j as [|j].
  - injection H as <-. split; reflexivity.
  - simpl in H. destruct (IH j H) as [H1 H2].
    replace (2 * S j)%nat with (S (S (2 * j))) by lia.
    replace (S (S (2 * j)) + 1)%nat with (S (S (2 * j + 1))) by lia.
    split; assumption.
Qed.

Lemma assign_params_app (s : list string) (a b : list Z) (m : gmap string string) :
  assign_params s (a ++ b)%list m
  = let* m' := assign_params s a m in assign_params s b m'.
Proof.
  revert m. induction a as [|n a IH]; intros m; simpl; [reflexivity|].
  destruct (py_nth s (n + 1)); simpl; [|reflexivity].
  destruct (py_nth s n); simpl; [|reflexivity]. apply IH.
Qed.

Lemma lookup_after {A : Type} (a b c : list A) (n i : nat) :
  i = (length a + length b + n)%nat -> (a ++ b ++ c)%list !! i = c !! n.
Proof.
  intros ->. rewrite lookup_app_r by lia. rewrite lookup_app_r by lia.
  f_equal. lia.
Qed.

(** The loop over the pairs that follow [base] in [s]. *)
Lemma assign_params_pairs (s base : list string) (kvs done : list (string * string))
    (tail : list string) (m : gmap string string) :
  s = (base ++ flat_pairs done ++ flat_pairs kvs ++ tail)%list ->
  assign_params s
    (map (fun j => (Z.of_nat (length base) + 2 * Z.of_nat j)%Z)
         (seq (length done) (length kvs))) m
  = Ok (assign_all kvs m).
Proof.
  intros Hs. revert done m Hs. induction kvs as [|kv kvs IH]; intros done m Hs;
    [reflexivity|].
  cbn [length seq map assign_params].
  assert (Hk : s !! (length base + 2 * length done)%nat = Some (fst kv)
            /\ s !! (length base + 2 * length done + 1)%nat = Some (snd kv)).
  { rewrite Hs. split.
    - rewrite (lookup_after base (flat_pairs done) _ 0 (length base + 2 * length done))
        by (rewrite flat_pairs_length; lia). reflexivity.
    - rewrite (lookup_after base (flat_pairs done) _ 1 (length base + 2 * length done + 1))
        by (rewrite flat_pairs_length; lia). reflexivity. }
  destruct Hk as [Hk Hv].
  replace (Z.of_nat (length base) + 2 * Z.of_nat (length done) + 1)%Z
    with (Z.of_nat (length base + 2 * length done + 1)) by lia.
  rewrite (py_nth_lookup _ _ _ Hv). cbn [rbind].
  replace (Z.of_nat (length base) + 2 * Z.of_nat (length done))%Z
    with (Z.of_nat (length base + 2 * length done)) by lia.
  rewrite (py_nth_lookup _ _ _ Hk). cbn [rbind].
  specialize (IH (done ++ [kv])%list (<[fst kv := snd kv]> m)).
  rewrite length_app in IH. cbn [length] in IH.
  replace (length done + 1)%nat with (S (length done)) in IH by lia.
  apply IH. rewrite Hs. unfold flat_pairs. rewrite flat_map_app. simpl.
  rewrite <- !app_assoc. reflexivity.
Qed.

Lemma range2_even (start : Z) (n : nat) :
  range2 start (start + 2 * Z.of_nat n)
  = map (fun j => (start + 2 * Z.of_nat j)%Z) (seq 0 n).
Proof.
  unfold range2. do 2 f_equal.
  replace (start + 2 * Z.of_nat n - start + 1)%Z with (Z.of_nat n * 2 + 1)%Z by lia.
  rewrite Z.div_add_l by lia. change (1 / 2)%Z with 0%Z. lia.
Qed.

Lemma range2_odd (start : Z) (n : nat) :
  range2 start (start + 2 * Z.of_nat n + 1)
  = map (fun j => (start + 2 * Z.of_nat j)%Z) (seq 0 (S n)).
Proof.
  unfold range2. do 2 f_equal.
  replace (start + 2 * Z.of_nat n + 1 - start + 1)%Z with (Z.of_nat (S n) * 2 + 0)%Z by lia.
  rewrite Z.div_add_l by lia. change (0 / 2)%Z with 0%Z. lia.
Qed.

(** X10: a job name without an item that [int] accepts makes the search loop run
    off the end of the list. *)
Theorem parseJobName_no_int (name : string) :
  Forall (fun t => int_ok t = false) (py_split "_" name) ->
  parseJobName int_ok name = Raise IndexError.
Proof.
  intros H. unfold parseJobName. rewrite (first_int_none _ _ H). reflexivity.
Qed.

(** X11: when the items of the name are a base, in which [int] accepts nothing,
    followed by pairs [key, value] whose first value is the first item that
    [int] accepts, the result holds the base name joined by underscores and
    every key with its value, later keys overriding earlier ones. *)
Theorem parseJobName_params (name : string) (base : list string) (k v : string)
    (kvs : list (string * string)) :
  py_split "_" name = (base ++ flat_pairs ((k, v) :: kvs))%list ->
  Forall (fun t => int_ok t = false) base ->
  int_ok k = false -> int_ok v = true ->
  parseJobName int_ok name
  = Ok (assign_all ((k, v) :: kvs) (<["baseName" := join_with "_" base]> ∅)).
Proof.
  intros Hs Hbase Hk Hv. unfold parseJobName. rewrite Hs.
  change (base ++ flat_pairs ((k, v) :: kvs))%list
    with (base ++ k :: v :: flat_pairs kvs)%list.
  replace (base ++ k :: v :: flat_pairs kvs)%list
    with ((base ++ [k]) ++ v :: flat_pairs kvs)%list by (rewrite <- app_assoc; reflexivity).
  rewrite first_int_found;
    [|apply Forall_app; split; [exact Hbase | repeat constructor; exact Hk] | exact Hv].
  cbn [rbind]. rewrite length_app. cbn [length].
  replace (0 + Z.of_nat (length base + 1) - 1)%Z with (Z.of_nat (length base)) by lia.
  rewrite <- app_assoc. cbn [app].
  unfold py_slice0.
  replace (0 <=? Z.of_nat (length base))%Z with true by (symmetry; apply Z.leb_le; lia).
  rewrite Nat2Z.id, firstn_app, Nat.sub_diag, firstn_all. cbn [firstn]. rewrite app_nil_r.
  replace (Z.of_nat (length (base ++ k :: v :: flat_pairs kvs)))
    with (Z.of_nat (length base) + 2 * Z.of_nat (length ((k, v) :: kvs)))%Z
    by (rewrite length_app; cbn [length]; rewrite flat_pairs_length; lia).
  rewrite range2_even.
  apply (assign_params_pairs _ base ((k, v) :: kvs) [] []).
  rewrite app_nil_r. reflexivity.
Qed.

(** X12: when a key is left without a value at the end of the name, the loop
    raises [IndexError]. *)
Theorem parseJobName_dangling (name : string) (base : list string) (k v last : string)
    (kvs : list (string * string)) :
  py_split "_" name = (base ++ flat_pairs ((k, v) :: kvs) ++ [last])%list ->
  Forall (fun t => int_ok t = false) base ->
  int_ok k = false -> int_ok v = true ->
  parseJobName int_ok name = Raise IndexError.
Proof.
  intros Hs Hbase Hk Hv. unfold parseJobName. rewrite Hs.
  set (s := (base ++ flat_pairs ((k, v) :: kvs) ++ [last])%list).
  assert (Hfirst : first_int int_ok s 0 = Ok (Z.of_nat (length base) + 1)%Z).
  { unfold s. change (flat_pairs ((k, v) :: kvs)) with (k :: v :: flat_pairs kvs).
    replace (base ++ (k :: v :: flat_pairs kvs) ++ [last])%list
      with ((base ++ [k]) ++ v :: flat_pairs kvs ++ [last])%list
      by (rewrite <- app_assoc; reflexivity).
    rewrite first_int_found;
      [|apply Forall_app; split; [exact Hbase | repeat constructor; exact Hk] | exact Hv].
    f_equal. rewrite length_app. simpl. lia. }
  rewrite Hfirst. cbn [rbind].
  replace (Z.of_nat (length base) + 1 - 1)%Z with (Z.of_nat (length base)) by lia.
  assert (Hlen : Z.of_nat (length s)
                 = (Z.of_nat (length base) + 2 * Z.of_nat (length ((k, v) :: kvs)) + 1)%Z).
  { unfold s. rewrite !length_app, flat_pairs_length. simpl length. lia. }
  rewrite Hlen, range2_odd.
  rewrite seq_S, map_app, assign_params_app.
  rewrite (assign_params_pairs s base ((k, v) :: kvs) [] [last]) by reflexivity.
  cbn [rbind map assign_params Nat.add].
  replace (Z.of_nat (length base) + 2 * Z.of_nat (length ((k, v) :: kvs)) + 1)%Z
    with (Z.of_nat (length s)) by lia.
  rewrite py_nth_end. reflexivity.
Qed.

End ParseJobNameFacts.

Lemma parseJobName_params_witness :
  parseJobName digits_only "test_C3D8R_envelope_loadRatio_5_alpha_30"
  = Ok (assign_all [("loadRatio", "5"); ("alpha", "30")]
          (<["baseName" := join_with "_" ["test"; "C3D8R"; "envelope"]]> ∅)).
Proof.
  apply (parseJobName_params digits_only _ ["test"; "C3D8R"; "envelope"]
           "loadRatio" "5" [("alpha", "30")]).
  - reflexivity.
  - repeat constructor.
  - reflexivity.
  - reflexivity.
Defined.

Lemma parseJobName_no_int_witness :
  parseJobName digits_only "test_C3D8R_simple" = Raise IndexError.
Proof.
  apply parseJobName_no_int. repeat constructor.
Defined.

Lemma parseJobName_dangling_witness :
  parseJobName digits_only "test_loadRatio_5_alpha" = Raise IndexError.
Proof.
  apply (parseJobName_dangling digits_only _ ["test"] "loadRatio" "5" "alpha" []).
  - reflexivity.
  - repeat constructor.
  - reflexivity.
  - reflexivity.
Defined.

(** ** The result file *)

#[local] Arguments String.append !s1 s2 : simpl nomatch.

Lemma append_nil_r (s : string) : s ++ "" = s.
Proof. induction s as [|c s IH]; simpl; [reflexivity | rewrite IH; reflexivity]. Qed.

Lemma append_assoc (a b c : string) : (a ++ b) ++ c = a ++ (b ++ c).
Proof. induction a as [|x a IH]; simpl; [reflexivity | rewrite IH; reflexivity]. Qed.

(** Two writes in a row are one write of the concatenation. *)
Lemma fwrite_fwrite (fileName a b : string) (fs : gmap string string) :
  fwrite fileName b (fwrite fileName a fs) = fwrite fileName (a ++ b) fs.
Proof.
  unfold fwrite. rewrite lookup_insert_eq, insert_insert_eq. simpl.
  rewrite append_assoc. reflexivity.
Qed.

(** An induction principle that reaches the items of the containers. *)
Lemma pyval_nested_ind (P : pyval -> Prop) :
  P PNone -> (forall b, P (PBool b)) -> (forall z, P (PInt z)) -> (forall s, P (PStr s)) ->
  (forall l, Forall P l -> P (PList l)) ->
  (forall d, Forall (fun kv => P (snd kv)) d -> P (PDict d)) ->
  forall v, P v.
Proof.
  intros HN HB HI HS HL HD.
  fix IH 1. intros [| b | z | s | l | d].
  - exact HN.
  - apply HB.
  - apply HI.
  - apply HS.
  - apply HL. induction l as [|x l IHl]; constructor; [apply IH | exact IHl].
  - apply HD. induction d as [|[k x] d IHd]; constructor; [apply IH | exact IHd].
Qed.

(** A loop whose every turn is one write is one write of the joined texts. *)
Lemma fold_left_fwrite {A : Type} (fileName : string)
    (step : gmap string string -> A -> gmap string string) (text : A -> string)
    (l : list A) :
  Forall (fun a => forall fs, step fs a = fwrite fileName (text a) fs) l ->
  forall (pre : string) (fs : gmap string string),
    fold_left step l (fwrite fileName pre fs)
    = fwrite fileName (pre ++ join (map text l)) fs.
Proof.
  induction 1 as [|a l Ha _ IH]; intros pre fs; simpl.
  - rewrite append_nil_r. reflexivity.
  - rewrite Ha, fwrite_fwrite, IH, append_assoc. reflexivity.
Qed.

(** Below depth 0 a call on a container appends its text to the file. *)
Lemma write_results_render (fileName : string) (v : pyval) :
  is_container v = true ->
  forall (depth : nat) (fs : gmap string string),
    write_results v fileName (S depth) fs = fwrite fileName (render v (S depth)) fs.
Proof.
  induction v as [| b | z | s | l IHl | d IHd] using pyval_nested_ind;
    try discriminate; intros _ depth fs.
  - cbn [write_results render Nat.eqb].
    erewrite fold_left_fwrite.
    + rewrite fwrite_fwrite, append_assoc. reflexivity.
    + eapply Forall_impl; [|exact IHl]. cbv beta.
      intros x Hx fs0. destruct x; try reflexivity; apply Hx; reflexivity.
  - cbn [write_results render Nat.eqb].
    erewrite fold_left_fwrite.
    + rewrite fwrite_fwrite, append_assoc. reflexivity.
    + eapply Forall_impl; [|exact IHd]. cbv beta.
      intros [k x] Hx fs0. cbn [snd] in Hx.
      destruct x; rewrite ?fwrite_fwrite; try reflexivity;
        rewrite Hx by reflexivity; rewrite fwrite_fwrite, append_assoc; reflexivity.
Qed.

(** At depth 0 the call empties the file and writes the header and the
    text of the collection. *)

(** At depth 0 the call empties the file, writes the header and then the
    text of the collection. *)
Lemma write_results_top_eq (fileName : string) (v : pyval) (fs : gmap string string) :
  is_container v = true ->
  write_results v fileName 0 fs
  = fwrite fileName (render v 0) (fwrite fileName "results = " (open_w fileName fs)).
Proof.
  intros Hc. destruct v as [| | | | l | d]; try discriminate.
  - cbn [write_results render Nat.eqb].
    erewrite fold_left_fwrite.
    + rewrite fwrite_fwrite, append_assoc. reflexivity.
    + apply Forall_forall. intros x _ fs0.
      destruct x; try reflexivity; apply write_results_render; reflexivity.
  - cbn [write_results render Nat.eqb].
    erewrite fold_left_fwrite.
    + rewrite fwrite_fwrite, append_assoc. reflexivity.
    + apply Forall_forall. intros [k x] _ fs0.
      destruct x; rewrite ?fwrite_fwrite; try reflexivity;
        rewrite write_results_render by reflexivity;
        rewrite fwrite_fwrite, append_assoc; reflexivity.
Qed.

(** X13: written at depth 0, the result file holds the header and the text of the
    collection, whatever the file held before and whatever other files
    exist. *)
Theorem write_results_overwrites (fileName : string) (v : pyval)
    (fs : gmap string string) :
  is_container v = true ->
  write_results v fileName 0 fs !! fileName = Some ("results = " ++ render v 0).
Proof.
  intros Hc. rewrite (write_results_top_eq _ _ _ Hc). unfold fwrite, open_w.
  rewrite lookup_insert_eq, lookup_insert_eq, lookup_insert_eq. reflexivity.
Qed.

Lemma write_results_overwrites_witness :
  write_results nested_collection "job_results.py" 0
    (<["job_results.py" := "results = [ stale ]"]> ∅) !! "job_results.py"
  = Some ("results = " ++ render nested_collection 0).
Proof. apply write_results_overwrites. reflexivity. Defined.

(** X14: below depth 0 the call keeps what the file holds and appends the text
    of the collection. *)
Theorem write_results_appends (fileName : string) (v : pyval) (depth : nat)
    (fs : gmap string string) :
  is_container v = true ->
  write_results v fileName (S depth) fs !! fileName
  = Some (default "" (fs !! fileName) ++ render v (S depth)).
Proof.
  intros Hc. rewrite (write_results_render _ _ Hc). unfold fwrite.
  apply lookup_insert_eq.
Qed.

Lemma write_results_appends_witness :
  write_results nested_collection "job_results.py" 1
    (<["job_results.py" := "results = ["]> ∅) !! "job_results.py"
  = Some (default "" ((<["job_results.py" := "results = ["]> ∅ : gmap string string)
                        !! "job_results.py")
          ++ render nested_collection 1).
Proof. apply write_results_appends. reflexivity. Defined.

(** X15: the call writes to no other file. *)
Theorem write_results_other_files (fileName other : string) (v : pyval) (depth : nat)
    (fs : gmap string string) :
  other <> fileName ->
  write_results v fileName depth fs !! other = fs !! other.
Proof.
  intros Hne.
  assert (Hw : forall s fs0, fwrite fileName s fs0 !! other = fs0 !! other).
  { intros s fs0. unfold fwrite. apply lookup_insert_ne. congruence. }
  destruct (is_container v) eqn:Hc.
  - destruct depth as [|depth].
    + rewrite (write_results_top_eq _ _ _ Hc), !Hw. unfold open_w.
      apply lookup_insert_ne. congruence.
    + rewrite (write_results_render _ _ Hc), Hw. reflexivity.
  - destruct v; try discriminate; destruct depth; cbn [write_results Nat.eqb];
      rewrite ?Hw; unfold open_w; rewrite ?lookup_insert_ne by congruence; reflexivity.
Qed.

Lemma write_results_other_files_witness :
  write_results nested_collection "job_results.py" 0
    (<["job.odb" := "binary"]> ∅) !! "job.odb"
  = (<["job.odb" := "binary"]> ∅ : gmap string string) !! "job.odb".
Proof. apply write_results_other_files. discriminate. Defined.

(** ** Maxima *)

Open Scope Q_scope.

(** The running maximum is an item of the list and bounds every item. *)
Lemma fold_max2_spec (l : list Q) (a : Q) :
  (fold_left max2 l a = a \/ List.In (fold_left max2 l a) l) /\
  a <= fold_left max2 l a /\
  Forall (fun x => x <= fold_left max2 l a) l.
Proof.
  revert a. induction l as [|b l IH]; intros a; simpl.
  - split; [left; reflexivity|]. split; [apply Qle_refl | constructor].
  - destruct (IH (max2 a b)) as (Hin & Hle & Hall).
    assert (Hm : (max2 a b = a \/ max2 a b = b) /\ a <= max2 a b /\ b <= max2 a b).
    { unfold max2. destruct (Qltb a b) eqn:E.
      - apply Qltb_lt in E. split; [right; reflexivity|]. split; [lra | apply Qle_refl].
      - apply Qltb_false in E. split; [left; reflexivity|]. split; [apply Qle_refl | exact E]. }
    destruct Hm as (Hor & Ha & Hb).
    split; [|split].
    + destruct Hin as [Hin|Hin]; [|right; right; exact Hin].
      rewrite Hin. destruct Hor as [->| ->]; [left; reflexivity | right; left; reflexivity].
    + lra.
    + constructor; [lra | exact Hall].
Qed.

Lemma py_max_spec (l : list Q) (m : Q) :
  py_max l = Ok m -> List.In m l /\ Forall (fun x => x <= m) l.
Proof.
  destruct l as [|a l]; [discriminate|]. simpl. intros [= <-].
  destruct (fold_max2_spec l a) as (Hin & Hle & Hall).
  split; [|constructor; assumption].
  destruct Hin as [->|Hin]; [left; reflexivity | right; exact Hin].
Qed.

Lemma py_index_spec (l : list Q) (v : Q) (i : nat) :
  py_index l v = Ok i ->
  exists a, l !! i = Some a /\ a == v /\
    forall j b, (j < i)%nat -> l !! j = Some b -> ~ b == v.
Proof.
  revert i. induction l as [|a l IH]; intros i; simpl; [discriminate|].
  destruct (Qeq_bool a v) eqn:E.
  - intros [= <-]. exists a. split; [reflexivity|]. split; [apply Qeq_bool_iff; exact E|].
    intros j b Hj. lia.
  - destruct (py_index l v) as [i'|] eqn:Hi; simpl; [|discriminate].
    intros [= <-]. destruct (IH i' eq_refl) as (a' & Ha' & Heq & Hbefore).
    exists a'. split; [exact Ha'|]. split; [exact Heq|].
    intros [|j] b Hj Hb.
    + injection Hb as <-. intros Habs. apply Qeq_bool_iff in Habs. congruence.
    + apply (Hbefore j b); [lia | exact Hb].
Qed.

Lemma py_index_found (l : list Q) (v : Q) :
  List.In v l -> exists i, py_index l v = Ok i.
Proof.
  induction l as [|a l IH]; [intros []|]. intros Hin. simpl.
  destruct (Qeq_bool a v) eqn:E; [exists 0%nat; reflexivity|].
  destruct Hin as [->|Hin].
  - assert (Qeq_bool v v = true) by (apply Qeq_bool_iff; reflexivity). congruence.
  - destruct (IH Hin) as (i & Hi). rewrite Hi. exists (S i). reflexivity.
Qed.

Lemma map_lookup {A B : Type} (f : A -> B) (l : list A) (i : nat) :
  map f l !! i = option_map f (l !! i).
Proof.
  revert i. induction l as [|a l IH]; intros [|i]; try reflexivity. apply IH.
Qed.

(** X16: on a series that is not empty, [x_at_peak_in_xy] returns the x of the
    first point whose [|y|] is the largest of the series. *)
Theorem x_at_peak_first_max (xy : list (Q * Q)) :
  xy <> [] ->
  exists x i pt,
    x_at_peak_in_xy xy = Ok x /\
    xy !! i = Some pt /\ x = fst pt /\
    Forall (fun p => Qabs (snd p) <= Qabs (snd pt)) xy /\
    forall j p, (j < i)%nat -> xy !! j = Some p -> Qabs (snd p) < Qabs (snd pt).
Proof.
  intros Hne. unfold x_at_peak_in_xy.
  set (y := map (fun pt => Qabs (snd pt)) xy).
  destruct (py_max y) as [y_max|e] eqn:Hmax;
    [|destruct xy; [congruence | discriminate]].
  destruct (py_max_spec y y_max Hmax) as (Hin & Hall).
  destruct (py_index_found y y_max Hin) as (i & Hi).
  destruct (py_index_spec y y_max i Hi) as (a & Ha & Heq & Hbefore).
  cbn [rbind]. rewrite Hi. cbn [rbind].
  unfold y in Ha. rewrite map_lookup in Ha.
  revert Ha. destruct (xy !! i) as [pt|] eqn:Hpt; simpl; intros Ha; [|discriminate].
  injection Ha as Ha. subst a.
  assert (Hx : map fst xy !! i = Some (fst pt)) by (rewrite map_lookup, Hpt; reflexivity).
  rewrite Hx. exists (fst pt), i, pt.
  split; [reflexivity|]. split; [exact Hpt|]. split; [reflexivity|]. split.
  - apply Forall_forall. intros p Hp.
    rewrite Forall_forall in Hall. rewrite Heq. apply Hall. unfold y.
    apply (in_map (fun pt => Qabs (snd pt))). exact Hp.
  - intros j p Hj Hp.
    assert (Hyj : y !! j = Some (Qabs (snd p)))
      by (unfold y; rewrite map_lookup, Hp; reflexivity).
    pose proof (Hbefore j _ Hj Hyj) as Hneq.
    assert (Hle : Qabs (snd p) <= y_max).
    { rewrite Forall_forall in Hall. apply Hall. unfold y.
      apply (in_map (fun pt => Qabs (snd pt))).
      apply list_elem_of_In. apply list_elem_of_lookup. exists j. exact Hp. }
    rewrite Heq. destruct (Qlt_le_dec (Qabs (snd p)) y_max) as [Hlt|Hge]; [exact Hlt|].
    exfalso. apply Hneq. apply Qle_antisym; assumption.
Qed.

Lemma x_at_peak_first_max_witness :
  exists x i pt,
    x_at_peak_in_xy two_peaks = Ok x /\
    two_peaks !! i = Some pt /\ x = fst pt /\
    Forall (fun p => Qabs (snd p) <= Qabs (snd pt)) two_peaks /\
    forall j p, (j < i)%nat -> two_peaks !! j = Some p -> Qabs (snd p) < Qabs (snd pt).
Proof. apply x_at_peak_first_max. discriminate. Defined.

Example x_at_peak_two_peaks : x_at_peak_in_xy two_peaks = Ok 1.
Proof. vm_compute. reflexivity. Qed.

Close Scope Q_scope.

(** ** The [max] and [min] tests *)

Open Scope Q_scope.

Lemma fold_min2_spec (l : list Q) (a : Q) :
  (fold_left min2 l a = a \/ List.In (fold_left min2 l a) l) /\
  fold_left min2 l a <= a /\
  Forall (fun x => fold_left min2 l a <= x) l.
Proof.
  revert a. induction l as [|b l IH]; intros a; simpl.
  - split; [left; reflexivity|]. split; [apply Qle_refl | constructor].
  - destruct (IH (min2 a b)) as (Hin & Hle & Hall).
    assert (Hm : (min2 a b = a \/ min2 a b = b) /\ min2 a b <= a /\ min2 a b <= b).
    { unfold min2. destruct (Qltb b a) eqn:E.
      - apply Qltb_lt in E. split; [right; reflexivity|]. split; [lra | apply Qle_refl].
      - apply Qltb_false in E. split; [left; reflexivity|]. split; [apply Qle_refl | exact E]. }
    destruct Hm as (Hor & Ha & Hb).
    split; [|split].
    + destruct Hin as [Hin|Hin]; [|right; right; exact Hin].
      rewrite Hin. destruct Hor as [->| ->]; [left; reflexivity | right; left; reflexivity].
    + lra.
    + constructor; [lra | exact Hall].
Qed.

Lemma py_min_spec (l : list Q) (m : Q) :
  py_min l = Ok m -> List.In m l /\ Forall (fun x => m <= x) l.
Proof.
  destruct l as [|a l]; [discriminate|]. simpl. intros [= <-].
  destruct (fold_min2_spec l a) as (Hin & Hle & Hall).
  split; [|constructor; assumption].
  destruct Hin as [->|Hin]; [left; reflexivity | right; exact Hin].
Qed.



Close Scope Q_scope.

(** ** More on the single-identifier branches and the gates *)


Lemma all_have_label_false (l : list Identifier) :
  (forall i, List.In i l -> exists d, i = IdDict d) ->
  (exists d, List.In (IdDict d) l /\ d !! label_name = None) ->
  all_have_label l = Ok false.
Proof.
  induction l as [|i l IH]; intros Hdict (d & Hin & Hd); [destruct Hin|].
  destruct (Hdict i (or_introl eq_refl)) as (di & ->).
  cbn [all_have_label has_label rbind].
  assert (Hrest : exists b, all_have_label l = Ok b).
  { clear -Hdict. induction l as [|j l IHl]; [exists true; reflexivity|].
    destruct (Hdict j (or_intror (or_introl eq_refl))) as (dj & ->).
    destruct IHl as (b & Hb).
    - intros k [Hk|Hk]; apply Hdict; [left; exact Hk | right; right; exact Hk].
    - cbn [all_have_label has_label rbind]. rewrite Hb. eexists. reflexivity. }
  destruct Hin as [Heq|Hin].
  - injection Heq as ->. destruct Hrest as (b & ->). cbn [rbind]. rewrite Hd.
    reflexivity.
  - rewrite IH; [|intros k Hk; apply Hdict; right; exact Hk | exists d; auto].
    cbn [rbind]. rewrite andb_false_r. reflexivity.
Qed.

(** X19: when the identifiers are dicts and one of them has no [label] key,
    [evaluate_statement] fails its assertion, whatever the statement. *)
Theorem evaluate_statement_needs_labels (odb : Odb) (steps : list string) (env : Env)
    (identifier_list : list Identifier) (var_names : list VarName)
    (eval_statement : gmap string series -> result series) :
  (forall i, List.In i identifier_list -> exists d, i = IdDict d) ->
  (exists d, List.In (IdDict d) identifier_list /\ d !! label_name = None) ->
  evaluate_statement odb steps env identifier_list var_names eval_statement
  = Raise AssertionError.
Proof.
  intros Hdict Hmiss. unfold evaluate_statement.
  rewrite (all_have_label_false _ Hdict Hmiss). reflexivity.
Qed.

Lemma evaluate_statement_needs_labels_witness :
  evaluate_statement odb_rf_u ["Step-1"] empty_env [id_rf1; IdDict rf1_loadapp]
    [Name rf1_name; Name rf1_name] (stmt_lookup "rf")
  = Raise AssertionError.
Proof.
  apply evaluate_statement_needs_labels.
  - intros i [<-|[<-|[]]]; eexists; reflexivity.
  - exists rf1_loadapp. split; [right; left; reflexivity | vm_compute; reflexivity].
Defined.

(** X20: a run that reports errors passes the error gate exactly when the job
    sets [ignoreAnalysisErrors] to a true value and, if one of its tests is
    the failure envelope, every reported error is an excessive distortion. *)
Theorem report_errors_passes_iff (para : gmap string pyval) (dd : DiagnosticData) :
  (0 < numberOfAnalysisErrors dd)%Z ->
  (report_errors para dd = Ok tt <->
   exists ts v,
     resultTypes para = Ok ts /\
     (existsb (is_str results_log_stress_at_failure_init) ts = true ->
      Forall (fun e => e = "Excessively distorted elements") (analysisErrors dd)) /\
     para !! "ignoreAnalysisErrors" = Some v /\ truthy v = true).
Proof.
  intros Hn. unfold report_errors. apply Z.ltb_lt in Hn. rewrite Hn.
  destruct (resultTypes para) as [ts|e]; cbn [rbind].
  2: { split; [discriminate | intros (ts & v & Habs & _); discriminate]. }
  destruct (existsb (is_str results_log_stress_at_failure_init) ts) eqn:Hex.
  - destruct (only_distortion (analysisErrors dd)) as [[]|e] eqn:Hd; cbn [rbind].
    + apply only_distortion_ok in Hd.
      destruct (para !! "ignoreAnalysisErrors") as [v|] eqn:Hk.
      * destruct (truthy v) eqn:Hv; simpl.
        -- split; [intros _; exists ts, v; auto | reflexivity].
        -- split; [discriminate|]. intros (ts' & v' & _ & _ & [= <-] & Hv'). congruence.
      * split; [discriminate | intros (ts' & v' & _ & _ & Habs & _); discriminate].
    + split; [discriminate|]. intros (ts' & v' & [= <-] & Hall & _).
      apply only_distortion_ok in Hall; [|exact Hex]. congruence.
  - cbn [rbind]. destruct (para !! "ignoreAnalysisErrors") as [v|] eqn:Hk.
    + destruct (truthy v) eqn:Hv; simpl.
      * split; [|reflexivity]. intros _. exists ts, v.
        split; [reflexivity|]. split; [intros Habs; congruence|].
        split; [reflexivity | exact Hv].
      * split; [discriminate|]. intros (ts' & v' & _ & _ & [= <-] & Hv'). congruence.
    + split; [discriminate | intros (ts' & v' & _ & _ & Habs & _); discriminate].
Qed.

Lemma report_errors_passes_iff_witness :
  report_errors envelope_job_opt_in one_distortion = Ok tt.
Proof.
  apply (proj2 (report_errors_passes_iff envelope_job_opt_in one_distortion eq_refl)).
  exists [PStr "log_stress_at_failure_init"], (PBool true).
  split; [vm_compute; reflexivity|]. split; [intros _; repeat constructor|].
  split; [vm_compute; reflexivity | reflexivity].
Defined.

(** ** More on the evaluators of a combined series *)

Open Scope Q_scope.

(** [np.all(np.diff(x) < 0)] is false exactly when some step does not go
    down. *)
Lemma all_down_false (l : list Q) :
  forallb (fun d => Qltb d 0) (np_diff l) = false <->
  exists i, (S i < length l)%nat /\ nth i l 0 <= nth (S i) l 0.
Proof.
  induction l as [|a [|b t] IH].
  - simpl. split; [discriminate | intros (i & Hi & _); lia].
  - simpl. split; [discriminate | intros (i & Hi & _); lia].
  - cbn [np_diff forallb]. rewrite andb_false_iff, Qltb_false, IH. split.
    + intros [H|(i & Hi & Hle)].
      * exists 0%nat. split; [simpl; lia | cbn [nth]; lra].
      * exists (S i). split; [simpl in Hi |- *; lia | exact Hle].
    + intros ([|i] & Hi & Hle).
      * left. cbn [nth] in Hle. lra.
      * right. exists i. split; [simpl in Hi |- *; lia | exact Hle].
Qed.

Lemma interp_each_length (xs xp fp ys : list Q) :
  interp_each xs xp fp = Ok ys -> length ys = length xs.
Proof.
  revert ys. induction xs as [|x xs IH]; intros ys; simpl.
  - intros [= <-]. reflexivity.
  - destruct (np_interp x xp fp); simpl; [|discriminate].
    destruct (interp_each xs xp fp) as [ys'|]; simpl; [|discriminate].
    intros [= <-]. simpl. f_equal. apply IH. reflexivity.
Qed.

Lemma nth_map_fst (xy : list (Q * Q)) (i : nat) :
  nth i (map fst xy) 0 = fst (nth i xy (0, 0)).
Proof. exact (map_nth fst xy (0, 0) i). Qed.

(** X21: the [tabular] branch returns a value exactly when the series has a step
    whose x does not go down; the value then has one pair for each reference
    pair, with the reference x values in order. *)
Theorem tabular_returns_iff (referenceValue xy : list (Q * Q)) :
  (exists r, tabular referenceValue xy = Ok r) <->
  (exists i, (S i < length xy)%nat /\ fst (nth i xy (0, 0)) <= fst (nth (S i) xy (0, 0))).
Proof.
  assert (Hstep : (exists i, (S i < length xy)%nat
                     /\ fst (nth i xy (0, 0)) <= fst (nth (S i) xy (0, 0)))
                  <-> forallb (fun d => Qltb d 0) (np_diff (map fst xy)) = false).
  { rewrite all_down_false, length_map.
    split; intros (i & Hi & Hle); exists i; (split; [exact Hi|]);
      rewrite ?nth_map_fst in *; exact Hle. }
  rewrite Hstep. unfold tabular. destruct xy as [|p xy].
  - split; [intros (r & Hr); discriminate | discriminate].
  - destruct (forallb (fun d => Qltb d 0) (np_diff (map fst (p :: xy)))).
    + split; [intros (r & Hr); discriminate | discriminate].
    + split; [reflexivity|]. intros _.
      destruct (interp_each_total (map fst referenceValue) (map fst (p :: xy))
                  (map snd (p :: xy))) as (ys & Hys & _);
        [discriminate | rewrite !length_map; reflexivity |].
      rewrite Hys. eexists. reflexivity.
Qed.

(** X22: When the tabular branch returns, the computed value has one pair
    per reference pair and its x values are the reference x values in the
    same order. *)
Theorem tabular_shape (referenceValue xy r : list (Q * Q)) :
  tabular referenceValue xy = Ok r ->
  map fst r = map fst referenceValue /\ length r = length referenceValue.
Proof.
  unfold tabular. destruct xy as [|p xy]; [discriminate|].
  destruct (forallb _ _); [discriminate|].
  destruct (interp_each _ _ _) as [ys|] eqn:Hys; simpl; [|discriminate].
  intros [= <-]. apply interp_each_length in Hys. rewrite length_map in Hys.
  split.
  - apply map_fst_combine_same. rewrite length_map. congruence.
  - rewrite length_combine, length_map, Hys. apply Nat.min_id.
Qed.

Lemma tabular_returns_iff_witness :
  exists r, tabular [(1 # 2, 0)] unsorted_xy = Ok r.
Proof.
  apply (proj2 (tabular_returns_iff [(1 # 2, 0)] unsorted_xy)).
  exists 0%nat. split; [simpl; lia | simpl; unfold Qle; simpl; lia].
Defined.

Lemma tabular_shape_witness :
  map fst [(1 # 2, 2 # 4); (3 # 2, 6 # 4)] = map fst [(1 # 2, 0); (3 # 2, 0)] /\
  length [(1 # 2, 2 # 4); (3 # 2, 6 # 4)] = length [(1 # 2, 0); (3 # 2, 0)].
Proof.
  apply (tabular_shape [(1 # 2, 0); (3 # 2, 0)] [(0, 0); (2, 2); (4, 6)]).
  vm_compute. reflexivity.
Defined.

Close Scope Q_scope.

Open Scope Q_scope.

(** X23: when the window selection returns, it returns the points strictly
    inside the window, at least two of them, and no two consecutive points
    of the selection have the same x. *)
Theorem select_window_returns (xyData w : list (Q * Q)) (windowMin windowMax : Q) :
  select_window xyData windowMin windowMax = Ok w ->
  w = window_filter xyData windowMin windowMax /\
  (2 <= length w)%nat /\
  forall i, (1 <= i < length w)%nat ->
    ~ fst (nth i w (0, 0)) == fst (nth (i - 1) w (0, 0)).
Proof.
  unfold select_window. set (wf := window_filter xyData windowMin windowMax).
  destruct (length wf =? 0)%nat eqn:Hlen; [discriminate|].
  apply Nat.eqb_neq in Hlen.
  set (dxs := map (fun i => Qabs (fst (nth i wf (0, 0)) - fst (nth (i - 1) wf (0, 0))))
                  (seq 1 (length wf - 1))).
  destruct (py_min dxs) as [m|] eqn:Hm; cbn [rbind]; [|discriminate].
  destruct (Qeq_bool m 0) eqn:Hz; [discriminate|]. intros [= <-].
  destruct (py_min_spec dxs m Hm) as [Hin Hall].
  split; [reflexivity|]. split.
  - pose proof Hin as Hin'. apply in_map_iff in Hin'. destruct Hin' as (k & _ & Hk).
    apply in_seq in Hk. lia.
  - intros i Hi Heq.
    assert (Hmpos : 0 < m).
    { apply in_map_iff in Hin. destruct Hin as (k & <- & _).
      destruct (Qlt_le_dec 0 (Qabs (fst (nth k wf (0, 0)) - fst (nth (k - 1) wf (0, 0)))))
        as [Hlt|Hle]; [exact Hlt|].
      exfalso. assert (Habs : Qeq_bool (Qabs (fst (nth k wf (0, 0))
                                            - fst (nth (k - 1) wf (0, 0)))) 0 = true).
      { apply Qeq_bool_iff. apply Qle_antisym; [exact Hle | apply Qabs_nonneg]. }
      congruence. }
    rewrite Forall_forall in Hall.
    assert (Hi_in : List.In (Qabs (fst (nth i wf (0, 0)) - fst (nth (i - 1) wf (0, 0)))) dxs).
    { unfold dxs. apply in_map_iff. exists i. split; [reflexivity|].
      apply in_seq. lia. }
    apply Hall in Hi_in.
    assert (Hd : fst (nth i wf (0, 0)) - fst (nth (i - 1) wf (0, 0)) == 0) by lra.
    rewrite Hd in Hi_in. change (Qabs 0) with 0 in Hi_in. lra.
Qed.

Lemma select_window_returns_witness :
  [(1, 1); (2, 2)] = window_filter line3 (1 # 2) (5 # 2) /\
  (2 <= length [(1, 1); (2, 2)])%nat /\
  forall i, (1 <= i < length [(1, 1); (2, 2)])%nat ->
    ~ fst (nth i [(1, 1); (2, 2)] (0, 0)) == fst (nth (i - 1) [(1, 1); (2, 2)] (0, 0)).
Proof.
  apply (select_window_returns line3 [(1, 1); (2, 2)] (1 # 2) (5 # 2)).
  vm_compute. reflexivity.
Defined.

(** The search loop of [disp_at_zero_y] stops at the first point within the
    tolerance. *)
Lemma find_zero_first (zeroTol : Q) (windowed : list (Q * Q)) :
  (Forall (fun pt => Qle_bool (Qabs (snd pt)) zeroTol = false) windowed /\
   find_zero zeroTol windowed = 0) \/
  (exists pre pt post,
     windowed = (pre ++ pt :: post)%list /\
     Forall (fun p => Qle_bool (Qabs (snd p)) zeroTol = false) pre /\
     Qle_bool (Qabs (snd pt)) zeroTol = true /\
     find_zero zeroTol windowed = fst pt).
Proof.
  induction windowed as [|p w IH]; [left; split; [constructor | reflexivity]|].
  simpl. destruct (Qle_bool (Qabs (snd p)) zeroTol) eqn:E.
  - right. exists [], p, w. repeat split; [constructor | exact E].
  - destruct IH as [[Hall Hz]|(pre & pt & post & -> & Hpre & Hpt & Hz)].
    + left. split; [constructor; assumption | exact Hz].
    + right. exists (p :: pre), pt, post.
      repeat split; [constructor; assumption | exact Hpt | exact Hz].
Qed.

(** X24: when [disp_at_zero_y] returns, the value is the x of the first point of
    the window whose [|y|] is within the tolerance, and it is not 0; the
    window is the given one or [referenceValue ± 2 tolerance], the tolerance
    the given one or 1e-6. *)
Theorem disp_at_zero_y_returns (window : option (Q * Q)) (referenceValue tolerance : Q)
    (zeroTol : option Q) (xy : list (Q * Q)) (x : Q) :
  disp_at_zero_y window referenceValue tolerance zeroTol xy = Ok x ->
  exists pre pt post,
    window_filter xy
      (fst (default (referenceValue - 2 * tolerance, referenceValue + 2 * tolerance) window))
      (snd (default (referenceValue - 2 * tolerance, referenceValue + 2 * tolerance) window))
    = (pre ++ pt :: post)%list /\
    Forall (fun p => default (1 # 1000000) zeroTol < Qabs (snd p)) pre /\
    Qabs (snd pt) <= default (1 # 1000000) zeroTol /\
    x = fst pt /\ ~ x == 0.
Proof.
  unfold disp_at_zero_y.
  destruct window as [[wmin wmax]|]; destruct zeroTol as [zt|];
    cbn [from_option fst snd]; unfold id;
    match goal with
    | |- context [find_zero ?z ?w] =>
        destruct (find_zero_first z w) as [[_ Hz]|(pre & pt & post & Hw & Hpre & Hpt & Hz)];
        rewrite Hz
    end;
    try (change (Qeq_bool 0 0) with true; discriminate);
    (destruct (Qeq_bool (fst pt) 0) eqn:E; [discriminate|]; intros [= <-];
     exists pre, pt, post; split; [exact Hw|]; split;
     [ eapply Forall_impl; [|exact Hpre]; cbv beta; intros p Hp;
       apply Qnot_le_lt; intros Hle; apply Qle_bool_iff in Hle; congruence
     | split; [apply Qle_bool_iff; exact Hpt|]; split; [reflexivity|];
       intros Habs; apply Qeq_bool_iff in Habs; congruence ]).
Qed.

Lemma disp_at_zero_y_returns_witness :
  exists pre pt post,
    window_filter zero_later
      (fst (default (0 - 2 * 0, 0 + 2 * 0) (Some (-1, 1))))
      (snd (default (0 - 2 * 0, 0 + 2 * 0) (Some (-1, 1))))
    = (pre ++ pt :: post)%list /\
    Forall (fun p => default (1 # 1000000) None < Qabs (snd p)) pre /\
    Qabs (snd pt) <= default (1 # 1000000) None /\
    (1 # 2) = fst pt /\ ~ (1 # 2) == 0.
Proof.
  apply (disp_at_zero_y_returns (Some (-1, 1)) 0 0 None zero_later (1 # 2)).
  vm_compute. reflexivity.
Defined.

Close Scope Q_scope.

(** ** The value of the [continuous] test *)

Open Scope Q_scope.

(** X25: the [continuous] branch returns a value exactly when the series has at
    least three samples. The value is then at least the reference value and
    at least every change [|y[i] - y[i-1]|] with [i >= 2], and it is the
    reference value or one of these changes. *)
Theorem continuous_returns (referenceValue : Q) (xy : list (Q * Q)) :
  ((exists v, continuous referenceValue xy = Ok v) <-> (3 <= length xy)%nat) /\
  forall v, continuous referenceValue xy = Ok v ->
    referenceValue <= v /\
    (forall i, (2 <= i < length xy)%nat ->
       Qabs (snd (nth i xy (0, 0)) - snd (nth (i - 1) xy (0, 0))) <= v) /\
    (v = referenceValue \/
     exists i, (2 <= i < length xy)%nat /\
       v = Qabs (snd (nth i xy (0, 0)) - snd (nth (i - 1) xy (0, 0)))).
Proof.
  unfold continuous.
  set (f := fun x : nat => max2 referenceValue
                (Qabs (snd (nth x xy (0, 0)) - snd (nth (x - 1) xy (0, 0))))).
  split.
  - destruct (length xy - 2)%nat as [|n] eqn:Hn.
    + simpl. split; [intros (v & Hv); discriminate | intros H; lia].
    + split; [intros _; lia | intros _; simpl; eexists; reflexivity].
  - intros v Hv. destruct (py_max_spec _ _ Hv) as [Hin Hall].
    apply in_map_iff in Hin. destruct Hin as (k & Hk & Hkin). apply in_seq in Hkin.
    assert (Hmax2 : forall a b, a <= max2 a b /\ b <= max2 a b /\ (max2 a b = a \/ max2 a b = b)).
    { intros a b. unfold max2. destruct (Qltb a b) eqn:E.
      - apply Qltb_lt in E. repeat split; [lra | apply Qle_refl | right; reflexivity].
      - apply Qltb_false in E. repeat split; [apply Qle_refl | exact E | left; reflexivity]. }
    rewrite Forall_forall in Hall.
    split; [|split].
    + rewrite <- Hk. apply Hmax2.
    + intros i Hi.
      apply Qle_trans with (f i); [apply Hmax2|].
      apply Hall. apply in_map_iff. exists i. split; [reflexivity | apply in_seq; lia].
    + destruct (Hmax2 referenceValue
                  (Qabs (snd (nth k xy (0, 0)) - snd (nth (k - 1) xy (0, 0)))))
        as (_ & _ & [H|H]).
      * left. rewrite <- Hk. exact H.
      * right. exists k. split; [lia | rewrite <- Hk; exact H].
Qed.

Lemma continuous_returns_witness :
  (3 <= length jump_first)%nat /\ (2 : Q) <= 2.
Proof.
  split.
  - apply (proj1 (proj1 (continuous_returns 2 jump_first))). exists 2. reflexivity.
  - apply (proj2 (continuous_returns 2 jump_first) 2). reflexivity.
Defined.

Close Scope Q_scope.

(** ** The order of the results *)

Section CollectOrder.

Variable odb : Odb.

Lemma XYDataFromHistory_results (env env' : Env) (n : string) (v : VarName)
    (steps : list string) (d : series) :
  XYDataFromHistory odb env n v steps = Ok (d, env') ->
  testResults env' = testResults env.
Proof.
  unfold XYDataFromHistory. destruct v as [name|]; [|discriminate].
  destruct (concat_steps odb name steps); simpl; [|discriminate].
  intros [= _ <-]. reflexivity.
Qed.

Lemma fill_d_results (steps : list string) (pairs : list (Identifier * VarName))
    (d d' : gmap string series) (env env' : Env) :
  fill_d odb steps pairs d env = Ok (d', env') -> testResults env' = testResults env.
Proof.
  revert d env. induction pairs as [|[ident var_name] pairs IH]; intros d env; simpl.
  - intros [= _ <-]. reflexivity.
  - destruct (ident_getitem ident symbol_name) as [sym|]; simpl; [|discriminate].
    destruct (XYDataFromHistory odb env sym var_name steps) as [[data env1]|] eqn:Hx;
      simpl; [|discriminate].
    destruct (ident_getitem ident label_name) as [lbl|]; simpl; [|discriminate].
    intros H. rewrite (IH _ _ H). exact (XYDataFromHistory_results _ _ _ _ _ _ Hx).
Qed.

Lemma evaluate_statement_results (steps : list string) (env env' : Env)
    (l : list Identifier) (vs : list VarName)
    (stmt : gmap string series -> result series) (xy : series) :
  evaluate_statement odb steps env l vs stmt = Ok (xy, env') ->
  testResults env' = testResults env.
Proof.
  unfold evaluate_statement.
  destruct (all_have_label l) as [[|]|]; simpl; try discriminate.
  destruct (fill_d odb steps (combine l vs) ∅ env) as [[d env1]|] eqn:Hf; simpl;
    [|discriminate].
  destruct (stmt d); simpl; [|discriminate].
  intros [= _ <-]. exact (fill_d_results _ _ _ _ _ _ Hf).
Qed.

(** The read of the [max], [min] and [finalValue] branches. *)
Lemma positional_read_results (steps : list string) (env env' : Env) (r : TestSpec)
    (varName : VarName) (xy : series) :
  (let* n := data_name r steps in
   let* (xyDataObj, env0) := XYDataFromHistory odb env n varName steps in
   let env1 := set_xyDataObj xyDataObj env0 in
   let* xy0 := of_option KeyError (xyDataObjects env1 !! n) in
   Ok (xy0, env1)) = Ok (xy, env') ->
  testResults env' = testResults env.
Proof.
  destruct (data_name r steps) as [n|]; simpl; [|discriminate].
  destruct (XYDataFromHistory odb env n varName steps) as [[d env0]|] eqn:Hx; simpl;
    [|discriminate].
  destruct (xyDataObjects env0 !! n); simpl; [|discriminate].
  intros [= _ <-]. exact (XYDataFromHistory_results _ _ _ _ _ _ Hx).
Qed.

Variable other_branches : list string -> Env -> TestSpec -> result Env.

(** A test of one identifier that is evaluated is appended to the results,
    with its computed value and otherwise unchanged. *)
Lemma collect_one_appends (env env' : Env) (r : TestSpec) :
  is_other_type (r_type r) = false ->
  collect_one odb other_branches env r = Ok env' ->
  exists v, testResults env' = (testResults env ++ [with_computed r v])%list.
Proof.
  intros Hother. unfold collect_one. rewrite Hother.
  set (steps := [match r_step r with Some s => s | None => "Step-1" end]).
  destruct (in_list (r_type r) [results_max; results_min]).
  - unfold branch_max_min.
    destruct (historyOutputNameFromIdentifier odb (r_identifier r) steps) as [varName|];
      simpl; [|discriminate].
    destruct (r_evalStatement r) as [stmt|].
    + destruct (evaluate_statement _ _ _ _ _ _) as [[xy env1]|] eqn:He; simpl;
        [|discriminate].
      apply evaluate_statement_results in He.
      destruct (if String.eqb _ _ then _ else _) as [v|]; simpl; [|discriminate].
      intros [= <-]. exists v. simpl. rewrite He. reflexivity.
    + match goal with
      | |- context [rbind ?m _] => destruct m as [[xy env1]|] eqn:He
      end; simpl; [|discriminate].
      apply positional_read_results in He.
      destruct (if String.eqb _ _ then _ else _) as [v|]; simpl; [|discriminate].
      intros [= <-]. exists v. simpl. rewrite He. reflexivity.
  - destruct (String.eqb (r_type r) results_continous).
    + unfold branch_continuous.
      destruct (historyOutputNameFromIdentifier odb (r_identifier r) steps) as [varName|];
        simpl; [|discriminate].
      destruct (r_evalStatement r) as [stmt|].
      * destruct (g_identifier_list env) as [il|]; simpl; [|discriminate].
        destruct (evaluate_statement _ _ _ _ _ _) as [[xy env1]|] eqn:He; simpl;
          [|discriminate].
        apply evaluate_statement_results in He.
        destruct (continuous _ _) as [v|]; simpl; [|discriminate].
        intros [= <-]. exists v. simpl. rewrite He. reflexivity.
      * destruct (XYDataFromHistory _ _ _ _ _) as [[xy env1]|] eqn:He; simpl;
          [|discriminate].
        apply XYDataFromHistory_results in He.
        destruct (continuous _ _) as [v|]; simpl; [|discriminate].
        intros [= <-]. exists v. simpl. rewrite He. reflexivity.
    + destruct (String.eqb (r_type r) results_final_value); [|discriminate].
      unfold branch_finalValue.
      destruct (historyOutputNameFromIdentifier odb (r_identifier r) steps) as [varName|];
        simpl; [|discriminate].
      destruct (r_evalStatement r) as [stmt|].
      * destruct (g_identifier_list env) as [il|]; simpl; [|discriminate].
        destruct (evaluate_statement _ _ _ _ _ _) as [[xy env1]|] eqn:He; simpl;
          [|discriminate].
        apply evaluate_statement_results in He.
        destruct (g_xyDataObj env1) as [obj|]; simpl; [|discriminate].
        destruct (obj !! _) as [pt|]; simpl; [|discriminate].
        intros [= <-]. exists (snd pt). simpl. rewrite He. reflexivity.
      * match goal with
        | |- context [rbind ?m _] => destruct m as [[xy env1]|] eqn:He
        end; simpl; [|discriminate].
        apply positional_read_results in He.
        destruct (g_xyDataObj env1) as [obj|]; simpl; [|discriminate].
        destruct (obj !! _) as [pt|]; simpl; [|discriminate].
        intros [= <-]. exists (snd pt). simpl. rewrite He. reflexivity.
Qed.

(** X26: when a job of tests of one identifier is evaluated to the end, the
    results are the earlier results followed by the tests of the job in
    their order, each with a computed value and otherwise unchanged. *)
Theorem collect_keeps_order (rs : list TestSpec) (env env' : Env) :
  Forall (fun r => is_other_type (r_type r) = false) rs ->
  collect odb other_branches env rs = Ok env' ->
  exists vs, length vs = length rs /\
    testResults env'
    = (testResults env ++ map (fun rv => with_computed (fst rv) (snd rv)) (combine rs vs))%list.
Proof.
  intros Hrs. revert env. induction Hrs as [|r rs Hr _ IH]; intros env; simpl.
  - intros [= <-]. exists []. split; [reflexivity | rewrite app_nil_r; reflexivity].
  - destruct (collect_one odb other_branches env r) as [env1|] eqn:H1; simpl;
      [|discriminate].
    intros H. destruct (collect_one_appends _ _ _ Hr H1) as (v & Hv).
    destruct (IH _ H) as (vs & Hlen & Hvs).
    exists (v :: vs). split; [simpl; congruence|].
    rewrite Hvs, Hv, <- app_assoc. reflexivity.
Qed.

End CollectOrder.

Lemma collect_keeps_order_witness :
  exists env',
    collect odb_rf_u no_other_branch empty_env [test_max_rf1; test_final_u1] = Ok env' /\
    exists vs, length vs = length [test_max_rf1; test_final_u1] /\
      testResults env'
      = (testResults empty_env
         ++ map (fun rv => with_computed (fst rv) (snd rv))
              (combine [test_max_rf1; test_final_u1] vs))%list.
Proof.
  eexists. split; [vm_compute; reflexivity|].
  eapply (collect_keeps_order odb_rf_u no_other_branch [test_max_rf1; test_final_u1]
            empty_env).
  - repeat constructor.
  - vm_compute. reflexivity.
Defined.
